(** * libbdvmi: the Xen driver (src/bdvmixendriver.cpp)

    A shallow embedding of the guest-state and memory-introspection
    operations of [bdvmi::XenDriver], and the properties of them that the
    specification states.

    Conventions.
    - A C++ unsigned integer of [w] bits is a [Z] in [0, 2^w); every place
      where the source narrows or wraps is written out with [wrap].
    - A [bool &] or [uint8_t &] out-parameter is an extra argument (the value
      the caller's variable holds before the call) and an extra component of
      the result (the value it holds after the call).
    - State that a member function reads or mutates ([msrs_],
      [addressCache_], the function-local [static] of [mtrrType]) is passed
      in and returned.
    - libxc, xenstore and the page cache are external: they appear as
      oracles (records of functions) that the operations are given.
    - [try { ... } catch ( ... )] is the error monad [Exc]: [None] is a
      thrown exception.
    - Messages written through [logHelper_] are not part of the embedding. *)

From Stdlib Require Import ZArith Lia Bool List Ascii String.
From stdpp Require Import base functions gmap sets list strings pretty.

Local Open Scope Z_scope.

(* ===================================================================== *)
(** * Part I: the embedding                                               *)
(* ===================================================================== *)

(** ** Machine integers *)

Definition wrap (w : Z) (x : Z) : Z := x mod 2 ^ w.

Definition uint8_t (x : Z) : Z := wrap 8 x.
Definition uint16_t (x : Z) : Z := wrap 16 x.
Definition uint32_t (x : Z) : Z := wrap 32 x.
Definition uint64_t (x : Z) : Z := wrap 64 x.

(** C truth value of an integer expression used as a condition. *)
Definition truthy (x : Z) : bool := negb (x =? 0).

(** ** Exceptions *)

(** [Exc A]: a computation that returns an [A] or throws. *)
Definition Exc (A : Type) : Type := option A.

Definition try_catch {A : Type} (body : Exc A) (handler : A) : A :=
  match body with
  | Some a => a
  | None => handler
  end.

(** ** Register snapshot and execution mode *)

Definition X86_CR0_PE : Z := 0x00000001.
Definition X86_EFLAGS_VM : Z := 0x00020000.
Definition _EFER_LMA : Z := 10.
Definition EFER_LMA : Z := Z.shiftl 1 _EFER_LMA.
Definition CS_AR_BYTES_L : Z := Z.shiftl 1 9.
Definition CS_AR_BYTES_D : Z := Z.shiftl 1 10.

(** [Registers::guest_x86_mode]. *)
Inductive GuestX86Mode : Type :=
| ERROR
| CS_TYPE_16
| CS_TYPE_32
| CS_TYPE_64.

(** The per-vCPU save record [struct hvm_hw_cpu] of Xen, with the fields the
    driver reads.  [guest_x86_mode] exists in the record of the interface
    revisions before 4.4 only; later revisions ignore it. *)
Module hvm_hw_cpu.
Record t : Type := mk {
  sysenter_cs : Z; sysenter_esp : Z; sysenter_eip : Z;
  msr_efer : Z; msr_star : Z; msr_lstar : Z;
  fs_base : Z; gs_base : Z;
  idtr_base : Z; idtr_limit : Z; gdtr_base : Z; gdtr_limit : Z;
  rflags : Z;
  rax : Z; rcx : Z; rdx : Z; rbx : Z; rsp : Z; rbp : Z; rsi : Z; rdi : Z;
  r8 : Z; r9 : Z; r10 : Z; r11 : Z; r12 : Z; r13 : Z; r14 : Z; r15 : Z;
  rip : Z;
  dr7 : Z; cr0 : Z; cr2 : Z; cr3 : Z; cr4 : Z;
  cs_arbytes : Z;
  guest_x86_mode : Z
}.
End hvm_hw_cpu.

(** The architecture-neutral [bdvmi::Registers]. *)
Module Registers.
Record t : Type := mk {
  sysenter_cs : Z; sysenter_esp : Z; sysenter_eip : Z;
  msr_efer : Z; msr_star : Z; msr_lstar : Z;
  fs_base : Z; gs_base : Z;
  idtr_base : Z; idtr_limit : Z; gdtr_base : Z; gdtr_limit : Z;
  rflags : Z;
  rax : Z; rcx : Z; rdx : Z; rbx : Z; rsp : Z; rbp : Z; rsi : Z; rdi : Z;
  r8 : Z; r9 : Z; r10 : Z; r11 : Z; r12 : Z; r13 : Z; r14 : Z; r15 : Z;
  rip : Z;
  dr7 : Z; cr0 : Z; cr2 : Z; cr3 : Z; cr4 : Z; cr8 : Z;
  cs_arbytes : Z;
  guest_x86_mode : GuestX86Mode
}.

Definition set_guest_x86_mode (m : GuestX86Mode) (r : t) : t :=
  mk (sysenter_cs r) (sysenter_esp r) (sysenter_eip r)
     (msr_efer r) (msr_star r) (msr_lstar r)
     (fs_base r) (gs_base r)
     (idtr_base r) (idtr_limit r) (gdtr_base r) (gdtr_limit r)
     (rflags r)
     (rax r) (rcx r) (rdx r) (rbx r) (rsp r) (rbp r) (rsi r) (rdi r)
     (r8 r) (r9 r) (r10 r) (r11 r) (r12 r) (r13 r) (r14 r) (r15 r)
     (rip r)
     (dr7 r) (cr0 r) (cr2 r) (cr3 r) (cr4 r) (cr8 r)
     (cs_arbytes r)
     m.
End Registers.

Definition hvm_long_mode_enabled (regs : Registers.t) : Z :=
  Z.land (Registers.msr_efer regs) EFER_LMA.

(** [XenDriver::guestX86Mode]: the raw mode code, 0, 1, 2, 4 or 8. *)
Definition guestX86Mode (regs : Registers.t) : Z :=
  if negb (truthy (Z.land (Registers.cr0 regs) X86_CR0_PE)) then 0
  else if truthy (Z.land (Registers.rflags regs) X86_EFLAGS_VM) then 1
  else if truthy (hvm_long_mode_enabled regs)
          && truthy (Z.land (Registers.cs_arbytes regs) CS_AR_BYTES_L) then 8
  else if truthy (Z.land (Registers.cs_arbytes regs) CS_AR_BYTES_D) then 4
  else 2.

(** The [switch ( x86Mode )] at the end of [XenDriver::registers]. *)
Definition x86ModeTag (x86Mode : Z) : GuestX86Mode :=
  if x86Mode =? 2 then CS_TYPE_16
  else if x86Mode =? 4 then CS_TYPE_32
  else if x86Mode =? 8 then CS_TYPE_64
  else ERROR.

(** The field-by-field copy of [XenDriver::registers]; [cr8] is set to 0 and
    [guest_x86_mode] keeps the caller's value until the switch. *)
Definition copyHwCpu (hwCpu : hvm_hw_cpu.t) (regs : Registers.t) : Registers.t :=
  Registers.mk
    (hvm_hw_cpu.sysenter_cs hwCpu) (hvm_hw_cpu.sysenter_esp hwCpu)
    (hvm_hw_cpu.sysenter_eip hwCpu)
    (hvm_hw_cpu.msr_efer hwCpu) (hvm_hw_cpu.msr_star hwCpu)
    (hvm_hw_cpu.msr_lstar hwCpu)
    (hvm_hw_cpu.fs_base hwCpu) (hvm_hw_cpu.gs_base hwCpu)
    (hvm_hw_cpu.idtr_base hwCpu) (hvm_hw_cpu.idtr_limit hwCpu)
    (hvm_hw_cpu.gdtr_base hwCpu) (hvm_hw_cpu.gdtr_limit hwCpu)
    (hvm_hw_cpu.rflags hwCpu)
    (hvm_hw_cpu.rax hwCpu) (hvm_hw_cpu.rcx hwCpu) (hvm_hw_cpu.rdx hwCpu)
    (hvm_hw_cpu.rbx hwCpu) (hvm_hw_cpu.rsp hwCpu) (hvm_hw_cpu.rbp hwCpu)
    (hvm_hw_cpu.rsi hwCpu) (hvm_hw_cpu.rdi hwCpu)
    (hvm_hw_cpu.r8 hwCpu) (hvm_hw_cpu.r9 hwCpu) (hvm_hw_cpu.r10 hwCpu)
    (hvm_hw_cpu.r11 hwCpu) (hvm_hw_cpu.r12 hwCpu) (hvm_hw_cpu.r13 hwCpu)
    (hvm_hw_cpu.r14 hwCpu) (hvm_hw_cpu.r15 hwCpu)
    (hvm_hw_cpu.rip hwCpu)
    (hvm_hw_cpu.dr7 hwCpu) (hvm_hw_cpu.cr0 hwCpu) (hvm_hw_cpu.cr2 hwCpu)
    (hvm_hw_cpu.cr3 hwCpu) (hvm_hw_cpu.cr4 hwCpu)
    0
    (hvm_hw_cpu.cs_arbytes hwCpu)
    (Registers.guest_x86_mode regs).

(** [XenDriver::registers].  [xen_version] is
    [__XEN_LATEST_INTERFACE_VERSION__]; [getcontext] is what
    [xc_domain_hvm_getcontext_partial] delivers for the CPU record of the
    vCPU, [None] when the call fails; [regs] is the caller's structure. *)
Definition registers (xen_version : Z) (getcontext : option hvm_hw_cpu.t)
    (regs : Registers.t) : bool * Registers.t :=
  match getcontext with
  | None => (false, regs)
  | Some hwCpu =>
      let regs := copyHwCpu hwCpu regs in
      let x86Mode :=
        if 0x00040400 <=? xen_version then guestX86Mode regs
        else hvm_hw_cpu.guest_x86_mode hwCpu in
      (true, Registers.set_guest_x86_mode (x86ModeTag x86Mode) regs)
  end.

(** The decision tree as the specification words it. *)
Definition spec_execution_mode (cr0 rflags msr_efer cs_arbytes : Z) : GuestX86Mode :=
  if negb (Z.testbit cr0 0) then CS_TYPE_16
  else if Z.testbit rflags 17 then CS_TYPE_16
  else if Z.testbit msr_efer 10 && Z.testbit cs_arbytes 9 then CS_TYPE_64
  else if Z.testbit cs_arbytes 10 then CS_TYPE_32
  else CS_TYPE_16.

(** The decision tree the code implements: real mode and virtual-8086 mode
    have the raw codes 0 and 1, which the switch maps to [ERROR]. *)
Definition code_execution_mode (cr0 rflags msr_efer cs_arbytes : Z) : GuestX86Mode :=
  if negb (Z.testbit cr0 0) then ERROR
  else if Z.testbit rflags 17 then ERROR
  else if Z.testbit msr_efer 10 && Z.testbit cs_arbytes 9 then CS_TYPE_64
  else if Z.testbit cs_arbytes 10 then CS_TYPE_32
  else CS_TYPE_16.

(** ** Memory-type range registers *)

Definition MTRR_PHYSMASK_VALID_BIT : Z := 11.
Definition MTRR_PHYSMASK_SHIFT : Z := 12.
Definition MTRR_PHYSBASE_TYPE_MASK : Z := 0xff.

Definition XC_PAGE_SHIFT : Z := 12.
Definition XC_PAGE_SIZE : Z := Z.shiftl 1 XC_PAGE_SHIFT.
(** [XC_PAGE_MASK] is [~(XC_PAGE_SIZE - 1)] at [unsigned long]. *)
Definition XC_PAGE_MASK : Z := uint64_t (Z.lnot (XC_PAGE_SIZE - 1)).

Definition paddr_to_pfn (pa : Z) : Z := uint64_t (Z.shiftr pa XC_PAGE_SHIFT).

Definition MTRR_TYPE_UNCACHABLE : Z := 0.
Definition MTRR_TYPE_WRTHROUGH : Z := 4.
Definition MTRR_TYPE_WRBACK : Z := 6.

(** Xen's [struct hvm_hw_mtrr]: [msr_mtrr_var] holds [MTRR_VCNT * 2 = 16]
    words, (base, mask) pairs; [msr_mtrr_fixed] holds [NUM_FIXED_MSR = 11]
    words, read by the driver as 88 bytes. *)
Record hvm_hw_mtrr : Type := mk_hvm_hw_mtrr {
  msr_pat_cr : Z;
  msr_mtrr_var : list Z;
  msr_mtrr_fixed : list Z;
  msr_mtrr_cap : Z;
  msr_mtrr_def_type : Z
}.

(** [hwMtrr.msr_mtrr_var[k]].  The source reads past the array when the
    count in [msr_mtrr_cap] exceeds 8; the embedding reads 0 there. *)
Definition mtrr_var (hwMtrr : hvm_hw_mtrr) (k : nat) : Z :=
  nth k (msr_mtrr_var hwMtrr) 0.

(** [u8_fixed[k]]: byte [k] of [msr_mtrr_fixed] (x86 is little-endian). *)
Definition u8_fixed (hwMtrr : hvm_hw_mtrr) (k : Z) : Z :=
  Z.land (Z.shiftr (nth (Z.to_nat (k / 8)) (msr_mtrr_fixed hwMtrr) 0)
                   (8 * (k mod 8))) 0xff.

(** [XenDriver::getMtrrRange]: the pair ([base], [end]), in pages.  The
    shift [1 << ( physAddr_ - XC_PAGE_SHIFT )] is an [int] shift: C++
    defines it for [12 <= physAddr_ <= 42] only.  Outside that interval the
    definition follows the x86 shift instruction, which takes the count
    modulo 32; the properties below that depend on the ranges are stated
    for the interval where C++ defines the shift. *)
Definition getMtrrRange (physAddr_ : Z) (base_msr mask_msr : Z) : Z * Z :=
  let mask_lo := uint32_t mask_msr in
  let mask_hi := uint32_t (Z.shiftr mask_msr 32) in
  let base_lo := uint32_t base_msr in
  let base_hi := uint32_t (Z.shiftr base_msr 32) in
  if Z.land mask_lo 0x800 =? 0 then (0, 0)
  else
    let size_or_mask :=
      uint32_t (Z.lnot (Z.shiftl 1 ((physAddr_ - XC_PAGE_SHIFT) mod 32) - 1)) in
    let mask_lo :=
      Z.lor (Z.lor size_or_mask
                   (uint32_t (Z.shiftl mask_hi (32 - XC_PAGE_SHIFT))))
            (Z.shiftr mask_lo XC_PAGE_SHIFT) in
    let size := uint32_t (- mask_lo) in
    let base :=
      Z.lor (uint32_t (Z.shiftl base_hi (32 - XC_PAGE_SHIFT)))
            (Z.shiftr base_lo XC_PAGE_SHIFT) in
    let end_ := uint64_t (base + size - 1) in
    (base, end_).

(** The condition of the inner loop of [isVarMtrrOverlapped]. *)
Definition mtrr_overlap_cond (base_pre end_pre base end_ : Z) : bool :=
  (negb (base_pre =? end_pre) && negb (base =? end_))
  || ((base_pre <=? base) && (base <=? end_pre))
  || ((base_pre <=? end_) && (end_ <=? end_pre))
  || ((base <=? base_pre) && (base_pre <=? end_))
  || ((base <=? end_pre) && (end_pre <=? end_)).

(** [XenDriver::isVarMtrrOverlapped]: the two nested loops, [i] over all
    ranges and [seg] over the ranges after [i]. *)
Definition isVarMtrrOverlapped (physAddr_ : Z) (hwMtrr : hvm_hw_mtrr) : bool :=
  let num_var_ranges := Z.to_nat (uint8_t (msr_mtrr_cap hwMtrr)) in
  existsb
    (fun i =>
       let '(base_pre, end_pre) :=
         getMtrrRange physAddr_ (mtrr_var hwMtrr (i * 2))
                      (mtrr_var hwMtrr (i * 2 + 1)) in
       existsb
         (fun seg =>
            let '(base, end_) :=
              getMtrrRange physAddr_ (mtrr_var hwMtrr (seg * 2))
                           (mtrr_var hwMtrr (seg * 2 + 1)) in
            mtrr_overlap_cond base_pre end_pre base end_)
         (seq (S i) (num_var_ranges - S i)))
    (seq 0 num_var_ranges).

(** Whether variable range [seg] is valid and contains [guestAddress]: the
    two nested conditions of the scan loop of [mtrrType]. *)
Definition var_range_matches (hwMtrr : hvm_hw_mtrr) (guestAddress : Z)
    (seg : nat) : bool :=
  let phys_base := mtrr_var hwMtrr (seg * 2) in
  let phys_mask := mtrr_var hwMtrr (seg * 2 + 1) in
  truthy (Z.land phys_mask (Z.shiftl 1 MTRR_PHYSMASK_VALID_BIT))
  && (Z.shiftr (Z.land (uint64_t guestAddress) phys_mask) MTRR_PHYSMASK_SHIFT
      =? Z.shiftr (Z.land phys_base phys_mask) MTRR_PHYSMASK_SHIFT).

(** The memory type of variable range [seg]. *)
Definition var_range_type (hwMtrr : hvm_hw_mtrr) (seg : nat) : Z :=
  Z.land (mtrr_var hwMtrr (seg * 2)) MTRR_PHYSBASE_TYPE_MASK.

(** How the scan loop ends: by a [return] inside it, or by running through
    with the accumulated [overlap_mtrr] and [overlap_mtrr_pos]. *)
Inductive scan_result : Type :=
| ScanReturn (ret : bool)
| ScanDone (overlap_mtrr overlap_mtrr_pos : Z).

(** The scan loop of [mtrrType] over the segments [segs].  The statement
    [overlap_mtrr |= 1 << type] is computed at [int] and narrowed to
    [uint8_t] (C++ leaves the shift undefined for a type above 30). *)
Fixpoint scanVarRanges (hwMtrr : hvm_hw_mtrr) (overlapped : bool)
    (guestAddress : Z) (segs : list nat)
    (overlap_mtrr overlap_mtrr_pos : Z) : scan_result :=
  match segs with
  | [] => ScanDone overlap_mtrr overlap_mtrr_pos
  | seg :: segs' =>
      if var_range_matches hwMtrr guestAddress seg then
        if overlapped then
          scanVarRanges hwMtrr overlapped guestAddress segs'
            (uint8_t (Z.lor overlap_mtrr
                            (Z.shiftl 1 (var_range_type hwMtrr seg))))
            (uint8_t (var_range_type hwMtrr seg))
        else
          (* return phys_base & MTRR_PHYSBASE_TYPE_MASK;  -- as a bool *)
          ScanReturn (truthy (var_range_type hwMtrr seg))
      else
        scanVarRanges hwMtrr overlapped guestAddress segs'
          overlap_mtrr overlap_mtrr_pos
  end.

(** The body of [XenDriver::mtrrType] once [hwMtrr] is available.  [type]
    is the value of the caller's variable before the call; the result is the
    returned [bool] and the value of the variable after the call. *)
Definition mtrrTypeOf (physAddr_ : Z) (hwMtrr : hvm_hw_mtrr)
    (guestAddress : Z) (type : Z) : bool * Z :=
  let def_type := uint8_t (Z.land (msr_mtrr_def_type hwMtrr) 0xff) in
  let enabled := uint8_t (Z.shiftr (msr_mtrr_def_type hwMtrr) 10) in
  if negb (truthy (Z.land enabled 0x2)) then (true, MTRR_TYPE_UNCACHABLE)
  else if (guestAddress <? 0x100000) && truthy (Z.land enabled 1) then
    (* Fixed range MTRR takes effective *)
    let addr := uint32_t guestAddress in
    if addr <? 0x80000 then
      let seg := Z.shiftr addr 16 in
      (truthy (u8_fixed hwMtrr seg), type)
    else if addr <? 0xc0000 then
      let seg := Z.shiftr (addr - 0x80000) 14 in
      let index := Z.shiftr seg 3 + 1 in
      let seg := Z.land seg 7 in
      (truthy (u8_fixed hwMtrr (index * 8 + seg)), type)
    else
      let seg := Z.shiftr (addr - 0xc0000) 12 in
      let index := Z.shiftr seg 3 + 3 in
      let seg := Z.land seg 7 in
      (truthy (u8_fixed hwMtrr (index * 8 + seg)), type)
  else
    let num_var_ranges := uint8_t (Z.land (msr_mtrr_cap hwMtrr) 0xff) in
    let overlapped := isVarMtrrOverlapped physAddr_ hwMtrr in
    match scanVarRanges hwMtrr overlapped guestAddress
            (seq 0 (Z.to_nat num_var_ranges)) 0 0 with
    | ScanReturn ret => (ret, type)
    | ScanDone overlap_mtrr overlap_mtrr_pos =>
        if overlap_mtrr =? 0 then (true, def_type)
        else if negb (truthy (Z.land overlap_mtrr
                                (Z.lnot (Z.shiftl 1 overlap_mtrr_pos)))) then
          (true, overlap_mtrr_pos)
        else if truthy (Z.land overlap_mtrr 0x1) then
          (* Two or more match, one is UC. *)
          (true, MTRR_TYPE_UNCACHABLE)
        else if negb (truthy (Z.land overlap_mtrr 0xaf)) then
          (* Two or more match, WT and WB. *)
          (true, MTRR_TYPE_WRTHROUGH)
        else
          (* Behaviour is undefined, but return the last overlapped type. *)
          (true, overlap_mtrr_pos)
    end.

(** [XenDriver::mtrrType] with its function-local statics: [cached] is
    [Some hwMtrr] once [hwMtrrInit] is set; [getcontext] is what
    [xc_domain_hvm_getcontext_partial] delivers for the MTRR record, [None]
    when it fails.  The result adds the statics after the call. *)
Definition mtrrType (physAddr_ : Z) (getcontext : option hvm_hw_mtrr)
    (cached : option hvm_hw_mtrr) (guestAddress : Z) (type : Z)
    : bool * Z * option hvm_hw_mtrr :=
  match cached with
  | Some hwMtrr => (mtrrTypeOf physAddr_ hwMtrr guestAddress type, cached)
  | None =>
      match getcontext with
      | None => (false, type, None)
      | Some hwMtrr =>
          (mtrrTypeOf physAddr_ hwMtrr guestAddress type, Some hwMtrr)
      end
  end.

(** The types of the valid variable ranges that contain [guestAddress], in
    register order. *)
Definition matching_types (hwMtrr : hvm_hw_mtrr) (guestAddress : Z) : list Z :=
  map (var_range_type hwMtrr)
      (List.filter (var_range_matches hwMtrr guestAddress)
              (seq 0 (Z.to_nat (uint8_t (Z.land (msr_mtrr_cap hwMtrr) 0xff))))).

(** [overlap_mtrr] and [overlap_mtrr_pos] after the scan has taken the
    matching types [ts] one by one. *)
Definition scan_mask (ts : list Z) (overlap_mtrr : Z) : Z :=
  fold_left (fun m t => uint8_t (Z.lor m (Z.shiftl 1 t))) ts overlap_mtrr.

Definition scan_pos (ts : list Z) (overlap_mtrr_pos : Z) : Z :=
  fold_left (fun _ t => uint8_t t) ts overlap_mtrr_pos.

(** The fallback order for several matching ranges, as the specification
    words it: one distinct type; else uncacheable if any is; else
    write-through if only write-through and write-back occur; else the type
    of the last matching range. *)
Definition spec_overlap_type (types : list Z) : Z :=
  match types with
  | [] => 0
  | t :: _ =>
      if forallb (Z.eqb t) types then t
      else if existsb (Z.eqb MTRR_TYPE_UNCACHABLE) types then MTRR_TYPE_UNCACHABLE
      else if forallb (fun u => (u =? MTRR_TYPE_WRTHROUGH) || (u =? MTRR_TYPE_WRBACK)) types
           then MTRR_TYPE_WRTHROUGH
      else List.last types 0
  end.

(** Whether [guestAddress] is resolved by the fixed-range table. *)
Definition fixed_range_applies (hwMtrr : hvm_hw_mtrr) (guestAddress : Z) : bool :=
  let enabled := uint8_t (Z.shiftr (msr_mtrr_def_type hwMtrr) 10) in
  truthy (Z.land enabled 0x2)
  && (guestAddress <? 0x100000) && truthy (Z.land enabled 1).

(** Whether the variable ranges are consulted for [guestAddress]. *)
Definition var_ranges_apply (hwMtrr : hvm_hw_mtrr) (guestAddress : Z) : bool :=
  let enabled := uint8_t (Z.shiftr (msr_mtrr_def_type hwMtrr) 10) in
  truthy (Z.land enabled 0x2)
  && negb ((guestAddress <? 0x100000) && truthy (Z.land enabled 1)).

(** The index into [u8_fixed] that the three address bands compute. *)
Definition fixed_index (guestAddress : Z) : Z :=
  let addr := uint32_t guestAddress in
  if addr <? 0x80000 then Z.shiftr addr 16
  else if addr <? 0xc0000 then
    let seg := Z.shiftr (addr - 0x80000) 14 in
    (Z.shiftr seg 3 + 1) * 8 + Z.land seg 7
  else
    let seg := Z.shiftr (addr - 0xc0000) 12 in
    (Z.shiftr seg 3 + 3) * 8 + Z.land seg 7.

(** ** Page protection *)

(** [access_t]: the nine values the driver names, and [access_other] for any
    other value of the hypervisor's enumeration (the [default:] label). *)
Inductive access_t : Type :=
| access_n
| access_r
| access_w
| access_x
| access_rw
| access_rx
| access_wx
| access_rwx
| access_rx2rw
| access_other (code : Z).

(** The two libxc calls on a hypervisor state [H]: [set_mem_access] returns
    libxc's return code and the state after; [get_mem_access] returns the
    return code and the value written to [memaccess]. *)
Record MemAccessOps (H : Type) : Type := mk_MemAccessOps {
  set_mem_access : H -> access_t -> Z -> Z -> Z * H;
  get_mem_access : H -> Z -> Z * access_t
}.
Arguments set_mem_access {H} _ _ _ _ _.
Arguments get_mem_access {H} _ _ _.

(** The [if]/[else if] chain of [setPageProtection]. *)
Definition memaccess_of (read write execute : bool) : access_t :=
  let memaccess := access_n in
  if read && negb write && negb execute then access_r
  else if negb read && write && negb execute then access_w
  else if negb read && negb write && execute then access_x
  else if read && write && negb execute then access_rw
  else if read && negb write && execute then access_rx
  else if negb read && write && execute then access_wx
  else if read && write && execute then access_rwx
  else memaccess.

(** [XenDriver::setPageProtection]. *)
Definition setPageProtection {H : Type} (xc : MemAccessOps H) (h : H)
    (guestAddress : Z) (read write execute : bool) : bool * H :=
  let memaccess := memaccess_of read write execute in
  let gfn := paddr_to_pfn guestAddress in
  let '(rc, h') := set_mem_access xc h memaccess gfn 1 in
  if truthy rc then (false, h') else (true, h').

(** The [switch ( memaccess )] of [getPageProtection], after
    [read = write = execute = false]. *)
Definition decode_memaccess (memaccess : access_t) : bool * bool * bool :=
  match memaccess with
  | access_r => (true, false, false)
  | access_w => (false, true, false)
  | access_rw => (true, true, false)
  | access_x => (false, false, true)
  | access_rx => (true, false, true)
  | access_wx => (false, true, true)
  | access_rwx => (true, true, true)
  | access_rx2rw => (true, false, true)
  | access_n => (false, false, false)
  | access_other _ => (false, false, false)
  end.

(** [XenDriver::getPageProtection]; [rwx] is what the caller's three
    variables hold before the call. *)
Definition getPageProtection {H : Type} (xc : MemAccessOps H) (h : H)
    (guestAddress : Z) (rwx : bool * bool * bool) : bool * (bool * bool * bool) :=
  let gfn := paddr_to_pfn guestAddress in
  let '(rc, memaccess) := get_mem_access xc h gfn in
  if truthy rc then (false, rwx) else (true, decode_memaccess memaccess).

(** A hypervisor that stores what it is told: a successful
    [set_mem_access] on one frame is what a later [get_mem_access] of that
    frame reads. *)
Definition stores_faithfully {H : Type} (xc : MemAccessOps H) : Prop :=
  forall h a gfn h',
    set_mem_access xc h a gfn 1 = (0, h') -> get_mem_access xc h' gfn = (0, a).

(** A hypervisor with a table of per-frame access values; frames never set
    have [access_rwx]. *)
Definition table_mem_access : MemAccessOps (gmap Z access_t) :=
  mk_MemAccessOps (gmap Z access_t)
    (fun h a gfn _ => (0, <[gfn := a]> h))
    (fun h gfn => (0, default access_rwx (h !! gfn))).

(** ** Writing registers *)

(** [struct cpu_user_regs] of a 32-bit guest, as a map from member to
    value. *)
Module x86_32.
Inductive member : Type :=
| ebx | ecx | edx | esi | edi | ebp | eax
| error_code | entry_vector
| eip | cs | saved_upcall_mask
| eflags | esp | ss | es | ds | fs | gs.

#[global] Instance member_eq_dec : EqDecision member.
Proof. solve_decision. Defined.

(** [vcpu_guest_context_x86_32_t]: [user_regs] and the members the driver
    never names (FPU, trap table, descriptor tables, control and debug
    registers, ...), kept as one opaque value. *)
Record vcpu_guest_context : Type := mk {
  user_regs : member -> Z;
  others : list Z
}.

(** [ctxt.user_regs.m = v], narrowed to the member's 32 bits. *)
Definition assign (m : member) (v : Z) (c : vcpu_guest_context)
    : vcpu_guest_context :=
  mk (<[m := uint32_t v]> (user_regs c)) (others c).
End x86_32.

(** [struct cpu_user_regs] of a 64-bit guest; [eip] is the member that
    shares its storage with [rip]. *)
Module x86_64.
Inductive member : Type :=
| r15 | r14 | r13 | r12 | rbp | rbx | r11 | r10 | r9 | r8
| rax | rcx | rdx | rsi | rdi
| error_code | entry_vector
| eip | cs | saved_upcall_mask
| rflags | rsp | ss | es | ds | fs | gs.

#[global] Instance member_eq_dec : EqDecision member.
Proof. solve_decision. Defined.

Record vcpu_guest_context : Type := mk {
  user_regs : member -> Z;
  others : list Z
}.

Definition assign (m : member) (v : Z) (c : vcpu_guest_context)
    : vcpu_guest_context :=
  mk (<[m := uint64_t v]> (user_regs c)) (others c).
End x86_64.

(** libxc's vCPU context calls on a hypervisor state [H], and the union
    [vcpu_guest_context_any_t] as a type [C] with its two views: [x32 c] and
    [x64 c] read a view, [with_x32] and [with_x64] write one.
    [xc_vcpu_getcontext] is [None] when libxc reports failure;
    [xc_vcpu_setcontext] returns the return code and the state after. *)
Record VcpuContextOps (H C : Type) : Type := mk_VcpuContextOps {
  x32 : C -> x86_32.vcpu_guest_context;
  with_x32 : x86_32.vcpu_guest_context -> C -> C;
  x64 : C -> x86_64.vcpu_guest_context;
  with_x64 : x86_64.vcpu_guest_context -> C -> C;
  xc_vcpu_getcontext : H -> Z -> option C;
  xc_vcpu_setcontext : H -> Z -> C -> Z * H
}.
Arguments x32 {H C} _ _.
Arguments with_x32 {H C} _ _ _.
Arguments x64 {H C} _ _.
Arguments with_x64 {H C} _ _ _.
Arguments xc_vcpu_getcontext {H C} _ _ _.
Arguments xc_vcpu_setcontext {H C} _ _ _ _.

(** Reading a view after writing it gives what was written. *)
Definition x32_view_lawful {H C : Type} (xc : VcpuContextOps H C) : Prop :=
  forall v c, x32 xc (with_x32 xc v c) = v.

(** The assignments of [setRegisters] between the two libxc calls. *)
Definition setRegisters_ctxt {H C : Type} (xc : VcpuContextOps H C)
    (guestWidth_ : Z) (regs : Registers.t) (setEip : bool) (ctxt : C) : C :=
  let st32 m v c := with_x32 xc (x86_32.assign m v (x32 xc c)) c in
  let st64 m v c := with_x64 xc (x86_64.assign m v (x64 xc c)) c in
  if guestWidth_ =? 4 then
    let ctxt := st32 x86_32.eax (Registers.rax regs) ctxt in
    let ctxt := st32 x86_32.ecx (Registers.rcx regs) ctxt in
    let ctxt := st32 x86_32.edx (Registers.rdx regs) ctxt in
    let ctxt := st32 x86_32.ebx (Registers.rbx regs) ctxt in
    let ctxt := st32 x86_32.esp (Registers.rsp regs) ctxt in
    let ctxt := st32 x86_32.ebp (Registers.rbp regs) ctxt in
    let ctxt := st32 x86_32.esi (Registers.rsi regs) ctxt in
    let ctxt := st32 x86_32.edi (Registers.rdi regs) ctxt in
    if setEip then st32 x86_32.eip (Registers.rip regs) ctxt else ctxt
  else
    let ctxt := st64 x86_64.rax (Registers.rax regs) ctxt in
    let ctxt := st64 x86_64.rcx (Registers.rcx regs) ctxt in
    let ctxt := st64 x86_64.rdx (Registers.rdx regs) ctxt in
    let ctxt := st64 x86_64.rbx (Registers.rbx regs) ctxt in
    let ctxt := st64 x86_64.rsp (Registers.rsp regs) ctxt in
    let ctxt := st64 x86_64.rbp (Registers.rbp regs) ctxt in
    let ctxt := st64 x86_64.rsi (Registers.rsi regs) ctxt in
    let ctxt := st64 x86_64.rdi (Registers.rdi regs) ctxt in
    let ctxt := st64 x86_64.r8 (Registers.r8 regs) ctxt in
    let ctxt := st64 x86_64.r9 (Registers.r9 regs) ctxt in
    let ctxt := st64 x86_64.r10 (Registers.r10 regs) ctxt in
    let ctxt := st64 x86_64.r11 (Registers.r11 regs) ctxt in
    let ctxt := st64 x86_64.r12 (Registers.r12 regs) ctxt in
    let ctxt := st64 x86_64.r13 (Registers.r13 regs) ctxt in
    let ctxt := st64 x86_64.r14 (Registers.r14 regs) ctxt in
    let ctxt := st64 x86_64.r15 (Registers.r15 regs) ctxt in
    if setEip then st64 x86_64.eip (Registers.rip regs) ctxt else ctxt.

(** [XenDriver::setRegisters]: fetch, assign, write back. *)
Definition setRegisters {H C : Type} (xc : VcpuContextOps H C)
    (guestWidth_ : Z) (h : H) (vcpu : Z) (regs : Registers.t) (setEip : bool)
    : bool * H :=
  match xc_vcpu_getcontext xc h vcpu with
  | None => (false, h)
  | Some ctxt =>
      let ctxt := setRegisters_ctxt xc guestWidth_ regs setEip ctxt in
      let '(rc, h') := xc_vcpu_setcontext xc h vcpu ctxt in
      if rc =? -1 then (false, h') else (true, h')
  end.

(** The eight general-purpose registers of the 32-bit layout. *)
Definition gpr32 : list x86_32.member :=
  [x86_32.eax; x86_32.ecx; x86_32.edx; x86_32.ebx;
   x86_32.esp; x86_32.ebp; x86_32.esi; x86_32.edi].

(** What [setRegisters] copies into a general-purpose register of the
    32-bit layout. *)
Definition gpr32_source (regs : Registers.t) (m : x86_32.member) : Z :=
  match m with
  | x86_32.eax => Registers.rax regs
  | x86_32.ecx => Registers.rcx regs
  | x86_32.edx => Registers.rdx regs
  | x86_32.ebx => Registers.rbx regs
  | x86_32.esp => Registers.rsp regs
  | x86_32.ebp => Registers.rbp regs
  | x86_32.esi => Registers.rsi regs
  | x86_32.edi => Registers.rdi regs
  | _ => 0
  end.

(** A hypervisor that keeps one context per vCPU, with the two views stored
    side by side. *)
Definition table_vcpu_context
  : VcpuContextOps (gmap Z (x86_32.vcpu_guest_context * x86_64.vcpu_guest_context))
                   (x86_32.vcpu_guest_context * x86_64.vcpu_guest_context) :=
  mk_VcpuContextOps _ _
    fst (fun v c => (v, snd c))
    snd (fun v c => (fst c, v))
    (fun h vcpu => h !! vcpu)
    (fun h vcpu c => (0, <[vcpu := c]> h)).

(** ** MSR intercept set *)

(** [msrs_.insert( msr )]: the only statement of the two operations that can
    throw, when the node cannot be allocated ([alloc_ok = false]). *)
Definition msrs_insert (alloc_ok : bool) (msr : Z) (msrs_ : gset Z)
    : Exc (gset Z) :=
  if alloc_ok then Some ({[msr]} ∪ msrs_) else None.

(** [XenDriver::enableMsrExit]: the returned [bool], [oldValue] after the
    call, and [msrs_] after the call. *)
Definition enableMsrExit (alloc_ok : bool) (msrs_ : gset Z) (msr : Z)
    (oldValue : bool) : bool * bool * gset Z :=
  let oldValue := false in
  try_catch
    (if decide (msr ∈ msrs_) then Some (true, true, msrs_)
     else
       match msrs_insert alloc_ok msr msrs_ with
       | Some msrs' => Some (true, oldValue, msrs')
       | None => None
       end)
    (false, oldValue, msrs_).

(** [XenDriver::disableMsrExit]. *)
Definition disableMsrExit (msrs_ : gset Z) (msr : Z) (oldValue : bool)
    : bool * bool * gset Z :=
  let oldValue := false in
  try_catch
    (if decide (msr ∈ msrs_) then Some (true, true, msrs_ ∖ {[msr]})
     else Some (true, oldValue, msrs_))
    (false, oldValue, msrs_).

(** ** Mapping guest memory *)

Inductive MapReturnCode : Type :=
| MAP_SUCCESS
| MAP_FAILED_GENERIC
| MAP_PAGE_NOT_PRESENT
| MAP_INVALID_PARAMETER.

#[global] Instance MapReturnCode_eq_dec : EqDecision MapReturnCode.
Proof. solve_decision. Defined.

(** What a test double would record of an operation: each use of the
    translation cache, of the guest translation and of the page cache. *)
Inductive Call : Type :=
| AddressCacheFind (address : Z)
| AddressCacheStore (address gfn : Z)
| TranslateForeignAddress (vcpu address : Z)
| PageCacheUpdate (gfn : Z).

#[global] Instance Call_eq_dec : EqDecision Call.
Proof. solve_decision. Defined.

(** The collaborators of the mapping operations.
    [xc_translate_foreign_address vcpu address] is the frame number, 0 when
    the address is not mapped in the guest.  [pageCache_update pc gfn] is
    the page cache after the call and, unless the call throws, the return
    code and the pointer written to [mapped]. *)
Record MapOps (PC : Type) : Type := mk_MapOps {
  xc_translate_foreign_address : Z -> Z -> Z;
  pageCache_update : PC -> Z -> PC * Exc (MapReturnCode * Z)
}.
Arguments xc_translate_foreign_address {PC} _ _ _.
Arguments pageCache_update {PC} _ _ _.

(** The members of [XenDriver] that the mapping operations touch, and the
    record of collaborator calls (most recent first). *)
Record Mapper (PC : Type) : Type := mk_Mapper {
  addressCache_ : gmap Z Z;
  pageCache_ : PC;
  calls : list Call
}.
Arguments mk_Mapper {PC} _ _ _.
Arguments addressCache_ {PC} _.
Arguments pageCache_ {PC} _.
Arguments calls {PC} _.

Definition record_call {PC : Type} (c : Call) (d : Mapper PC) : Mapper PC :=
  mk_Mapper (addressCache_ d) (pageCache_ d) (c :: calls d).

Definition NULL : Z := 0.

(** The one-page limit: [address] and [address + length - 1] (at 64 bits)
    lie in different pages. *)
Definition crosses_page (address length : Z) : bool :=
  negb (Z.land address XC_PAGE_MASK
        =? Z.land (uint64_t (address + length - 1)) XC_PAGE_MASK).

(** The page an address lies in. *)
Definition page_of (address : Z) : Z := address / XC_PAGE_SIZE.

(** [XenDriver::mapPhysMemToHost] (page cache enabled): the return code,
    [pointer] after the call, and the driver after the call. *)
Definition mapPhysMemToHost {PC : Type} (ops : MapOps PC) (d : Mapper PC)
    (address length : Z) (pointer : Z) : MapReturnCode * Z * Mapper PC :=
  (* one-page limit *)
  if crosses_page address length then (MAP_INVALID_PARAMETER, pointer, d)
  else
    let pointer := NULL in
    let gfn := paddr_to_pfn address in
    let d := record_call (PageCacheUpdate gfn) d in
    let '(pc', r) := pageCache_update ops (pageCache_ d) gfn in
    let d := mk_Mapper (addressCache_ d) pc' (calls d) in
    try_catch
      (match r with
       | None => None
       | Some (mrc, mapped) =>
           if negb (bool_decide (mrc = MAP_SUCCESS)) then Some (mrc, pointer, d)
           else if mapped =? NULL then Some (MAP_FAILED_GENERIC, pointer, d)
           else
             Some (MAP_SUCCESS,
                   mapped + Z.land address (uint64_t (Z.lnot XC_PAGE_MASK)), d)
       end)
      (MAP_FAILED_GENERIC, pointer, d).

(** [XenDriver::mapVirtMemToHost] (page cache enabled). *)
Definition mapVirtMemToHost {PC : Type} (ops : MapOps PC) (d : Mapper PC)
    (address length : Z) (vcpu : Z) (pointer : Z)
    : MapReturnCode * Z * Mapper PC :=
  (* one-page limit *)
  if crosses_page address length then (MAP_INVALID_PARAMETER, pointer, d)
  else
    let pointer := NULL in
    let d := record_call (AddressCacheFind address) d in
    let lookup :=
      match addressCache_ d !! address with
      | Some gfn => (Some gfn, d)
      | None =>
          let d := record_call (TranslateForeignAddress vcpu address) d in
          let gfn := xc_translate_foreign_address ops vcpu address in
          if gfn =? 0 then (None, d) else (Some gfn, d)
      end in
    match lookup with
    | (None, d) => (MAP_FAILED_GENERIC, pointer, d)
    | (Some gfn, d) =>
        let d := record_call (PageCacheUpdate gfn) d in
        let '(pc', r) := pageCache_update ops (pageCache_ d) gfn in
        let d := mk_Mapper (addressCache_ d) pc' (calls d) in
        try_catch
          (match r with
           | None => None
           | Some (mrc, mapped) =>
               if negb (bool_decide (mrc = MAP_SUCCESS)) then
                 Some (mrc, pointer, d)
               else if mapped =? NULL then
                 Some (MAP_FAILED_GENERIC, pointer, d)
               else
                 Some (MAP_SUCCESS,
                       mapped + Z.land address (uint64_t (Z.lnot XC_PAGE_MASK)),
                       d)
           end)
          (MAP_FAILED_GENERIC, pointer, d)
    end.

(** [XenDriver::cacheGuestVirtAddr]; [alloc_ok = false] makes the store
    into [addressCache_] throw. *)
Definition cacheGuestVirtAddr {PC : Type} (ops : MapOps PC) (alloc_ok : bool)
    (d : Mapper PC) (address : Z) : bool * Mapper PC :=
  let d := record_call (TranslateForeignAddress 0 address) d in
  let gfn := xc_translate_foreign_address ops 0 address in
  if gfn =? 0 then (false, d)
  else
    try_catch
      (if alloc_ok then
         Some (true,
               mk_Mapper (<[address := gfn]> (addressCache_ d)) (pageCache_ d)
                         (AddressCacheStore address gfn :: calls d))
       else None)
      (false, d).

(** How many guest translations a record of calls holds. *)
Definition translations (cs : list Call) : nat :=
  length (List.filter
            (fun c => match c with TranslateForeignAddress _ _ => true | _ => false end)
            cs).

(** A page cache that maps frame [gfn] at host address [(gfn + 1) * 4096]
    and counts its calls. *)
Definition counting_map_ops (translate : Z -> Z -> Z) : MapOps nat :=
  mk_MapOps nat translate
    (fun pc gfn => (S pc, Some (MAP_SUCCESS, (gfn + 1) * 4096))).

(** ** Resolving a domain name *)

(** The xenstore connection: whether [xs_open] yields a handle, the entries
    [xs_directory] lists under a path (none when it fails), and what
    [xs_read_timeout] reads at a path ([None] for a null pointer). *)
Record XenStore : Type := mk_XenStore {
  xs_open : bool;
  xs_directory : string -> list string;
  xs_read_timeout : string -> option string
}.

(** The result of a function that may throw [bdvmi::Exception]. *)
Inductive outcome (A : Type) : Type :=
| Returned (a : A)
| Threw (what : string).
Arguments Returned {A} _.
Arguments Threw {A} _.

Definition isspace (c : ascii) : bool :=
  let n := nat_of_ascii c in
  ((n =? 32) || ((9 <=? n) && (n <=? 13)))%nat.

Definition digit_value (c : ascii) : option Z :=
  let n := Z.of_nat (nat_of_ascii c) in
  if (48 <=? n) && (n <=? 57) then Some (n - 48) else None.

Fixpoint skip_spaces (s : string) : string :=
  match s with
  | String c s' => if isspace c then skip_spaces s' else s
  | EmptyString => s
  end.

Fixpoint atoi_digits (s : string) (acc : Z) : Z :=
  match s with
  | String c s' =>
      match digit_value c with
      | Some v => atoi_digits s' (10 * acc + v)
      | None => acc
      end
  | EmptyString => acc
  end.

(** C's [atoi] (its result is undefined when the number does not fit an
    [int]; the embedding gives the number). *)
Definition atoi (s : string) : Z :=
  match skip_spaces s with
  | String "-"%char s' => - atoi_digits s' 0
  | String "+"%char s' => atoi_digits s' 0
  | s' => atoi_digits s' 0
  end.

(** The body of the loop of [getDomainId] for one directory entry. *)
Definition getDomainId_step (xs : XenStore) (domainName : string)
    (domainId : Z) (entry : string) : Z :=
  let tmp := ("/local/domain/" +:+ entry +:+ "/name")%string in
  match xs_read_timeout xs tmp with
  | Some nameCandidate =>
      if String.eqb domainName nameCandidate then uint16_t (atoi entry)
      else domainId
  | None => domainId
  end.

(** [XenDriver::getDomainId]; [xsh_] tells whether the handle is open.  The
    result is the identifier or the exception, and [xsh_] after the call
    ([cleanup] closes it). *)
Definition getDomainId (xs : XenStore) (xsh_ : bool) (domainName : string)
    : outcome Z * bool :=
  let domainId := 0 in
  if negb xsh_ && negb (xs_open xs) then (Threw "xs_open() failed"%string, false)
  else
    let domains := xs_directory xs "/local/domain"%string in
    let size := length domains in
    if (size =? 0)%nat then
      (Threw ("Failed to retrieve domain ID by name [" +:+ domainName +:+ "]")%string,
       false)
    else
      (Returned (fold_left (getDomainId_step xs domainName) domains domainId),
       true).

(** A store with the control domain and one guest. *)
Definition two_domain_store : XenStore :=
  mk_XenStore true
    (fun path =>
       if String.eqb path "/local/domain" then ["0"; "5"]%string else [])
    (fun path =>
       if String.eqb path "/local/domain/0/name" then Some "Domain-0"%string
       else if String.eqb path "/local/domain/5/name" then Some "guest"%string
       else None).

(** ** Sample states *)

(** A vCPU in real mode: [cr0.PE] clear. *)
Definition real_mode_cpu : hvm_hw_cpu.t :=
  hvm_hw_cpu.mk 0 0 0 0 0 0 0 0 0 0xffff 0 0xffff 0x2
                0 0 0 0 0 0 0 0 0 0 0 0 0 0 0 0 0xfff0
                0x400 0x60000010 0 0 0 0x9b 0.

(** A vCPU in virtual-8086 mode: [cr0.PE] and [eflags.VM] set. *)
Definition vm86_cpu : hvm_hw_cpu.t :=
  hvm_hw_cpu.mk 0 0 0 0 0 0 0 0 0 0xffff 0 0xffff 0x20202
                0 0 0 0 0 0 0 0 0 0 0 0 0 0 0 0 0x100
                0x400 0x80000011 0 0 0 0xf3 0.

(** A vCPU in 64-bit mode. *)
Definition long_mode_cpu : hvm_hw_cpu.t :=
  hvm_hw_cpu.mk 0 0 0 0xd01 0 0 0 0 0 0xfff 0 0x7f 0x202
                0 0 0 0 0 0 0 0 0 0 0 0 0 0 0 0 0xfffff80000001000
                0x400 0x80050033 0 0x1aa000 0x6f8 0x29b 0.

Definition blank_regs : Registers.t :=
  Registers.mk 0 0 0 0 0 0 0 0 0 0 0 0 0
               0 0 0 0 0 0 0 0 0 0 0 0 0 0 0 0 0
               0 0 0 0 0 0 0 ERROR.

(** MTRRs and fixed ranges enabled, default type uncacheable; the first
    fixed register (addresses below 0x80000) is write-back throughout, the
    others are uncacheable; one variable range, 16 MiB of write-back at
    0x80000000. *)
Definition one_range_mtrr : hvm_hw_mtrr :=
  mk_hvm_hw_mtrr 0x0007040600070406
    [0x80000006; 0xFFF000800; 0; 0; 0; 0; 0; 0; 0; 0; 0; 0; 0; 0; 0; 0]
    [0x0606060606060606; 0; 0; 0; 0; 0; 0; 0; 0; 0; 0]
    1 0xC00.

(** Two variable ranges over the same 16 MiB at 0x80000000, the first
    write-back and the second write-through; fixed ranges disabled. *)
Definition two_range_mtrr : hvm_hw_mtrr :=
  mk_hvm_hw_mtrr 0x0007040600070406
    [0x80000006; 0xFFF000800; 0x80000004; 0xFFF000800;
     0; 0; 0; 0; 0; 0; 0; 0; 0; 0; 0; 0]
    [0; 0; 0; 0; 0; 0; 0; 0; 0; 0; 0]
    2 0x806.

(** A 32-bit and a 64-bit context, and a snapshot to write into them. *)
Definition sample_ctxt32 : x86_32.vcpu_guest_context :=
  x86_32.mk
    (fun m => match m with
              | x86_32.eip => 0x401000
              | x86_32.cs => 0x1b
              | x86_32.eflags => 0x202
              | _ => 0
              end)
    [0x7; 0x1f; 0x80050033].

Definition sample_ctxt64 : x86_64.vcpu_guest_context :=
  x86_64.mk (fun _ => 0) [].

Definition sample_regs : Registers.t :=
  Registers.mk 0 0 0 0 0 0 0 0 0 0 0 0 0x246
               0x1122334455667788 2 3 4 0x12f000 6 7 8
               9 10 11 12 13 14 15 16 0x77001000
               0 0x80050033 0 0 0 0 0xc9b CS_TYPE_32.

(** ** Time-stamp counter *)

(** [XenDriver::tscSpeed]: [tsc_info] is the [gtsc_khz] that
    [xc_domain_get_tsc_info] delivers, [None] when it fails.  The product
    [gtsc_khz * 1000] is computed at [uint32_t] before it is widened. *)
Definition tscSpeed (tsc_info : option Z) (speed : Z) : bool * Z :=
  match tsc_info with
  | None => (false, speed)
  | Some gtsc_khz => (true, uint32_t (gtsc_khz * 1000))
  end.

(** ** Ranges of the variable MTRRs *)

(** The two results of [getMtrrRange] for a valid pair, apart. *)
Definition mtrr_base_pages (base_msr : Z) : Z :=
  Z.lor (uint32_t (Z.shiftl (uint32_t (Z.shiftr base_msr 32))
                            (32 - XC_PAGE_SHIFT)))
        (Z.shiftr (uint32_t base_msr) XC_PAGE_SHIFT).

Definition mtrr_size_pages (physAddr_ mask_msr : Z) : Z :=
  uint32_t
    (- Z.lor (Z.lor (uint32_t (Z.lnot (Z.shiftl 1 ((physAddr_ - XC_PAGE_SHIFT)
                                                   mod 32) - 1)))
                    (uint32_t (Z.shiftl (uint32_t (Z.shiftr mask_msr 32))
                                        (32 - XC_PAGE_SHIFT))))
             (Z.shiftr (uint32_t mask_msr) XC_PAGE_SHIFT)).

(** The mask register of a region of [2 ^ k] bytes on a host with
    [physAddr_] address bits: bits [k .. physAddr_ - 1] and the valid bit. *)
Definition pow2_region_mask (physAddr_ k : Z) : Z :=
  2 ^ physAddr_ - 2 ^ k + 0x800.

(** Whether every pair ([physAddr_], [k]) with
    [12 <= k <= physAddr_ <= 42] gives a valid mask and the size
    [2 ^ (k - 12)] pages. *)
Definition pow2_regions_checked : bool :=
  forallb
    (fun p =>
       forallb
         (fun j =>
            let physAddr_ := 12 + Z.of_nat p in
            let k := 12 + Z.of_nat j in
            negb (Z.land (uint32_t (pow2_region_mask physAddr_ k)) 0x800 =? 0)
            && (mtrr_size_pages physAddr_ (pow2_region_mask physAddr_ k)
                =? 2 ^ (k - 12)))
         (seq 0 (S p)))
    (seq 0 31).

(** ** Writing registers, 64-bit layout *)

Definition x64_view_lawful {H C : Type} (xc : VcpuContextOps H C) : Prop :=
  forall v c, x64 xc (with_x64 xc v c) = v.

(** The sixteen general-purpose registers of the 64-bit layout. *)
Definition gpr64 : list x86_64.member :=
  [x86_64.rax; x86_64.rcx; x86_64.rdx; x86_64.rbx;
   x86_64.rsp; x86_64.rbp; x86_64.rsi; x86_64.rdi;
   x86_64.r8; x86_64.r9; x86_64.r10; x86_64.r11;
   x86_64.r12; x86_64.r13; x86_64.r14; x86_64.r15].

Definition gpr64_source (regs : Registers.t) (m : x86_64.member) : Z :=
  match m with
  | x86_64.rax => Registers.rax regs
  | x86_64.rcx => Registers.rcx regs
  | x86_64.rdx => Registers.rdx regs
  | x86_64.rbx => Registers.rbx regs
  | x86_64.rsp => Registers.rsp regs
  | x86_64.rbp => Registers.rbp regs
  | x86_64.rsi => Registers.rsi regs
  | x86_64.rdi => Registers.rdi regs
  | x86_64.r8 => Registers.r8 regs
  | x86_64.r9 => Registers.r9 regs
  | x86_64.r10 => Registers.r10 regs
  | x86_64.r11 => Registers.r11 regs
  | x86_64.r12 => Registers.r12 regs
  | x86_64.r13 => Registers.r13 regs
  | x86_64.r14 => Registers.r14 regs
  | x86_64.r15 => Registers.r15 regs
  | _ => 0
  end.

(** ** Releasing a mapping *)

(** [XenDriver::unmapPhysMem] (page cache enabled); [pageCache_release] is
    [pageCache_.release]. *)
Definition unmapPhysMem {PC : Type} (pageCache_release : PC -> Z -> PC)
    (pc : PC) (hostPtr : Z) : bool * PC :=
  let map := hostPtr in
  let map := Z.land (uint64_t map) XC_PAGE_MASK in
  (true, pageCache_release pc map).

(** [XenDriver::unmapVirtMem]. *)
Definition unmapVirtMem {PC : Type} (pageCache_release : PC -> Z -> PC)
    (pc : PC) (hostPtr : Z) : bool * PC :=
  unmapPhysMem pageCache_release pc hostPtr.

(** ** Opening a session *)

(** The members of [xc_dominfo_t] the driver reads. *)
Record xc_dominfo_t : Type := mk_xc_dominfo_t {
  hvm : bool;
  max_vcpu_id : Z
}.

(** What libxc and the processor answer during [init]:
    [xc_interface_open] tells whether a handle is obtained;
    [xc_domain_getinfo domain] is the information, [None] unless the call
    returns 1; [xc_version_capabilities] is the capability string, [None]
    when [xc_version] fails; [get_cpuid op] is the [eax] of the leaf, 0
    when the leaf is not supported. *)
Record InitOps : Type := mk_InitOps {
  xc_interface_open : bool;
  xc_domain_getinfo : Z -> option xc_dominfo_t;
  xc_version_capabilities : option string;
  get_cpuid : Z -> Z
}.

(** The members of [XenDriver] that [init] and [cleanup] assign: the two
    handles (open or null), the domain, the word size, the address width,
    the UUID and the domain the page cache was initialised for. *)
Record Session : Type := mk_Session {
  xci_ : bool;
  xsh_ : bool;
  domain_ : Z;
  guestWidth_ : Z;
  physAddr_ : Z;
  uuid_ : string;
  pageCache_domain : option Z
}.

(** [bdvmi::Exception]: the message and whether it carries
    [Exception::NOT_HVM]. *)
Inductive init_result : Type :=
| InitDone
| InitThrew (what : string) (not_hvm : bool).

(** [XenDriver::cleanup]. *)
Definition cleanup (s : Session) : Session :=
  mk_Session false false (domain_ s) (guestWidth_ s) (physAddr_ s) (uuid_ s)
             (pageCache_domain s).

(** [XenDriver::cpuid_eax]. *)
Definition cpuid_eax (xc : InitOps) (op : Z) : Z := get_cpuid xc op.

(** [strstr( haystack, needle ) != NULL]. *)
Fixpoint strstr (haystack needle : string) : bool :=
  String.prefix needle haystack
  || match haystack with
     | String _ rest => strstr rest needle
     | EmptyString => false
     end.

(** Whether [xs_read_timeout] gave a non-null, non-empty string. *)
Definition nonempty_read (r : option string) : option string :=
  match r with
  | Some (String c rest) => Some (String c rest)
  | _ => None
  end.

(** [XenDriver::init]. *)
Definition init (xc : InitOps) (xs : XenStore) (s : Session) (domain : Z)
    (hvmOnly : bool) : init_result * Session :=
  let s := mk_Session (xc_interface_open xc) (xsh_ s) (domain_ s)
                      (guestWidth_ s) (physAddr_ s) (uuid_ s)
                      (pageCache_domain s) in
  if negb (xci_ s) then
    (InitThrew "xc_interface_init() failed" false, cleanup s)
  else
    match xc_domain_getinfo xc domain with
    | None => (InitThrew "xc_domain_getinfo() failed" false, cleanup s)
    | Some info =>
        if hvmOnly && negb (hvm info) then
          (InitThrew ("Domain " +:+ pretty domain +:+ " is not a HVM guest")
                     true,
           cleanup s)
        else
          match xc_version_capabilities xc with
          | None =>
              (InitThrew "Could not get Xen capabilities" false, cleanup s)
          | Some caps =>
              let guestWidth := if strstr caps "x86_64" then 8 else 4 in
              let s := mk_Session (xci_ s) (xsh_ s) (domain_ s) guestWidth
                                  (physAddr_ s) (uuid_ s)
                                  (pageCache_domain s) in
              let opened := if xsh_ s then true else xs_open xs in
              let s := mk_Session (xci_ s) opened (domain_ s) (guestWidth_ s)
                                  (physAddr_ s) (uuid_ s)
                                  (pageCache_domain s) in
              if negb (xsh_ s) then
                (InitThrew "xs_open() failed" false, cleanup s)
              else
                let physAddr :=
                  if 0x80000008 <=? cpuid_eax xc 0x80000000 then
                    uint8_t (cpuid_eax xc 0x80000008)
                  else 36 in
                let uuid :=
                  match nonempty_read
                          (xs_read_timeout xs
                             ("/local/domain/" +:+ pretty (domain_ s) +:+ "/vm"))
                  with
                  | Some path =>
                      match nonempty_read
                              (xs_read_timeout xs (path +:+ "/uuid")) with
                      | Some path => path
                      | None => uuid_ s
                      end
                  | None => uuid_ s
                  end in
                (InitDone,
                 mk_Session (xci_ s) (xsh_ s) (domain_ s) (guestWidth_ s)
                            physAddr uuid (Some domain))
          end
    end.



(** A host that answers every call of [init]: a 64-bit hypervisor, an HVM
    guest 5, 39 physical address bits. *)
Definition sample_init_ops : InitOps :=
  mk_InitOps true
    (fun domain => Some (mk_xc_dominfo_t true 1))
    (Some "xen-3.0-x86_64 xen-3.0-x86_32p hvm-3.0-x86_32 hvm-3.0-x86_64")
    (fun op => if op =? 0x80000000 then 0x80000008
               else if op =? 0x80000008 then 0x3027 else 0).

(** ** Runs of [mtrrType] *)

(** One call of [mtrrType] as a process makes it: what the hypercall would
    deliver at that moment, the address, and the caller's [type]. *)
Record mtrrType_call : Type := mk_mtrrType_call {
  call_getcontext : option hvm_hw_mtrr;
  call_address : Z;
  call_type : Z
}.

(** A run of calls in one process, the function-local statics carried from
    each call to the next: the returned [bool] and [type] of every call,
    and the statics after the last. *)
Fixpoint mtrrType_run (physAddr_ : Z) (cached : option hvm_hw_mtrr)
    (calls : list mtrrType_call)
    : list (bool * Z) * option hvm_hw_mtrr :=
  match calls with
  | [] => ([], cached)
  | c :: calls' =>
      let '(ret, type, cached') :=
        mtrrType physAddr_ (call_getcontext c) cached
                 (call_address c) (call_type c) in
      let '(results, final) := mtrrType_run physAddr_ cached' calls' in
      ((ret, type) :: results, final)
  end.

(** Two valid variable ranges that both contain 0x80000000, the first one
    page of write-back, the second 8 KiB of write-through whose base is not
    aligned to its size; fixed ranges disabled. *)
Definition misaligned_pair_mtrr : hvm_hw_mtrr :=
  mk_hvm_hw_mtrr 0x0007040600070406
    [0x80000006; 0xFFFFFF800; 0x80001004; 0xFFFFFE800;
     0; 0; 0; 0; 0; 0; 0; 0; 0; 0; 0; 0]
    [0; 0; 0; 0; 0; 0; 0; 0; 0; 0; 0]
    2 0x806.

(* ===================================================================== *)
(** * Part II: properties                                                 *)
(* ===================================================================== *)

(** ** Bit tests *)

Lemma land_pow2_testbit (x k : Z) :
  0 <= k -> Z.land x (2 ^ k) = if Z.testbit x k then 2 ^ k else 0.
Proof.
  intros Hk. apply Z.bits_inj'. intros n Hn.
  rewrite Z.land_spec, Z.pow2_bits_eqb by assumption.
  destruct (Z.eqb_spec k n) as [->|Hne].
  - destruct (Z.testbit x n) eqn:E.
    + rewrite Z.pow2_bits_true by assumption. reflexivity.
    + rewrite Z.bits_0. reflexivity.
  - rewrite andb_false_r.
    destruct (Z.testbit x k).
    + rewrite Z.pow2_bits_false by congruence. reflexivity.
    + rewrite Z.bits_0. reflexivity.
Qed.

Lemma truthy_land_pow2 (x k : Z) :
  0 <= k -> truthy (Z.land x (2 ^ k)) = Z.testbit x k.
Proof.
  intros Hk. unfold truthy. rewrite land_pow2_testbit by assumption.
  destruct (Z.testbit x k); [|reflexivity].
  assert (0 < 2 ^ k) by (apply Z.pow_pos_nonneg; lia).
  destruct (Z.eqb_spec (2 ^ k) 0); [lia | reflexivity].
Qed.

(** ** Execution mode *)

Lemma guestX86Mode_tree (regs : Registers.t) :
  x86ModeTag (guestX86Mode regs)
  = code_execution_mode (Registers.cr0 regs) (Registers.rflags regs)
      (Registers.msr_efer regs) (Registers.cs_arbytes regs).
Proof.
  unfold guestX86Mode, code_execution_mode, hvm_long_mode_enabled.
  change X86_CR0_PE with (2 ^ 0). change X86_EFLAGS_VM with (2 ^ 17).
  change EFER_LMA with (2 ^ 10). change CS_AR_BYTES_L with (2 ^ 9).
  change CS_AR_BYTES_D with (2 ^ 10).
  rewrite !truthy_land_pow2 by lia.
  destruct (Z.testbit (Registers.cr0 regs) 0); [|reflexivity].
  destruct (Z.testbit (Registers.rflags regs) 17); [reflexivity|].
  destruct (Z.testbit (Registers.msr_efer regs) 10),
           (Z.testbit (Registers.cs_arbytes regs) 9),
           (Z.testbit (Registers.cs_arbytes regs) 10); reflexivity.
Qed.

(** C1 (as amended).  On the interface revisions that derive the mode
    (4.4 and later), a successful [registers] reports: undetermined
    ([ERROR]) when the protection-enable bit of cr0 is clear; else
    undetermined when the virtual-8086 flag is set; else 64-bit when EFER
    long-mode-active and the code-segment long bit are both set; else
    32-bit when the code-segment default-size bit is set, and 16-bit
    otherwise. *)
Theorem registers_mode_decision_tree (xen_version : Z)
    (hwCpu : hvm_hw_cpu.t) (regs : Registers.t) :
  0x00040400 <= xen_version ->
  fst (registers xen_version (Some hwCpu) regs) = true
  /\ Registers.guest_x86_mode (snd (registers xen_version (Some hwCpu) regs))
     = code_execution_mode (hvm_hw_cpu.cr0 hwCpu) (hvm_hw_cpu.rflags hwCpu)
         (hvm_hw_cpu.msr_efer hwCpu) (hvm_hw_cpu.cs_arbytes hwCpu).
Proof.
  intros Hv. unfold registers.
  destruct (Z.leb_spec 0x00040400 xen_version) as [_|Hlt]; [|lia].
  split; [reflexivity|].
  cbn [snd Registers.set_guest_x86_mode Registers.guest_x86_mode].
  rewrite guestX86Mode_tree. reflexivity.
Qed.

Lemma registers_mode_decision_tree_witness :
  Registers.guest_x86_mode
    (snd (registers 0x00040600 (Some long_mode_cpu) blank_regs)) = CS_TYPE_64.
Proof.
  pose proof (registers_mode_decision_tree 0x00040600 long_mode_cpu blank_regs)
    as Htree.
  destruct Htree as [_ Hmode]; [lia|].
  rewrite Hmode. reflexivity.
Defined.

(** C1 (as stated) fails: for a vCPU in real mode, and for one in
    virtual-8086 mode, [registers] reports [ERROR] where the specification's
    tree says 16-bit. *)
Lemma registers_real_mode_not_16bit :
  let reported hwCpu :=
    Registers.guest_x86_mode
      (snd (registers 0x00040600 (Some hwCpu) blank_regs)) in
  let specified hwCpu :=
    spec_execution_mode (hvm_hw_cpu.cr0 hwCpu) (hvm_hw_cpu.rflags hwCpu)
      (hvm_hw_cpu.msr_efer hwCpu) (hvm_hw_cpu.cs_arbytes hwCpu) in
  (reported real_mode_cpu = ERROR /\ specified real_mode_cpu = CS_TYPE_16
   /\ reported real_mode_cpu <> specified real_mode_cpu)
  /\ (reported vm86_cpu = ERROR /\ specified vm86_cpu = CS_TYPE_16
      /\ reported vm86_cpu <> specified vm86_cpu).
Proof. repeat split; vm_compute; congruence. Qed.

(** ** Memory types *)

(** On the fixed-range path [mtrrType] returns the table entry converted to
    [bool] and never assigns [type]. *)
Lemma mtrrTypeOf_fixed (physAddr_ : Z) (hwMtrr : hvm_hw_mtrr)
    (guestAddress type : Z) :
  fixed_range_applies hwMtrr guestAddress = true ->
  mtrrTypeOf physAddr_ hwMtrr guestAddress type
  = (truthy (u8_fixed hwMtrr (fixed_index guestAddress)), type).
Proof.
  unfold fixed_range_applies, mtrrTypeOf, fixed_index. cbv zeta.
  intros Hfix. apply andb_prop in Hfix as [Hfix He1].
  apply andb_prop in Hfix as [He2 Hlt].
  rewrite He2, Hlt, He1. cbn [negb andb].
  destruct (uint32_t guestAddress <? 0x80000); [reflexivity|].
  destruct (uint32_t guestAddress <? 0xc0000); reflexivity.
Qed.

(** Without overlap the scan leaves at the first matching range, with the
    range's type converted to [bool]. *)
Lemma scanVarRanges_not_overlapped (hwMtrr : hvm_hw_mtrr) (guestAddress : Z)
    (segs : list nat) (overlap_mtrr overlap_mtrr_pos : Z) :
  scanVarRanges hwMtrr false guestAddress segs overlap_mtrr overlap_mtrr_pos
  = match List.filter (var_range_matches hwMtrr guestAddress) segs with
    | [] => ScanDone overlap_mtrr overlap_mtrr_pos
    | seg :: _ => ScanReturn (truthy (var_range_type hwMtrr seg))
    end.
Proof.
  induction segs as [|seg segs IH]; [reflexivity|].
  cbn [scanVarRanges List.filter].
  destruct (var_range_matches hwMtrr guestAddress seg); [reflexivity|].
  exact IH.
Qed.

(** A match among ranges that do not overlap: [type] is not assigned, and
    the returned [bool] is whether the first matching type is nonzero. *)
Lemma mtrrTypeOf_single_match (physAddr_ : Z) (hwMtrr : hvm_hw_mtrr)
    (guestAddress type t : Z) (ts : list Z) :
  var_ranges_apply hwMtrr guestAddress = true ->
  isVarMtrrOverlapped physAddr_ hwMtrr = false ->
  matching_types hwMtrr guestAddress = t :: ts ->
  mtrrTypeOf physAddr_ hwMtrr guestAddress type = (truthy t, type).
Proof.
  unfold var_ranges_apply, mtrrTypeOf, matching_types. cbv zeta.
  intros Hvar Hno Hmatch. apply andb_prop in Hvar as [He2 Hnf].
  rewrite He2. cbn [negb].
  apply negb_true_iff in Hnf. rewrite Hnf, Hno.
  rewrite scanVarRanges_not_overlapped.
  destruct (List.filter _ _) as [|seg segs]; [discriminate|].
  cbn [map] in Hmatch. injection Hmatch as <- _. reflexivity.
Qed.

Lemma scanVarRanges_overlapped (hwMtrr : hvm_hw_mtrr) (guestAddress : Z)
    (segs : list nat) (overlap_mtrr overlap_mtrr_pos : Z) :
  let ts := map (var_range_type hwMtrr)
                (List.filter (var_range_matches hwMtrr guestAddress) segs) in
  scanVarRanges hwMtrr true guestAddress segs overlap_mtrr overlap_mtrr_pos
  = ScanDone (scan_mask ts overlap_mtrr) (scan_pos ts overlap_mtrr_pos).
Proof.
  cbv zeta. revert overlap_mtrr overlap_mtrr_pos.
  induction segs as [|seg segs IH]; intros m p; [reflexivity|].
  cbn [scanVarRanges List.filter].
  destruct (var_range_matches hwMtrr guestAddress seg).
  - rewrite IH. reflexivity.
  - apply IH.
Qed.

Lemma testbit_uint8_t (x k : Z) :
  0 <= k -> Z.testbit (uint8_t x) k = (k <? 8) && Z.testbit x k.
Proof.
  intros Hk. unfold uint8_t, wrap.
  destruct (Z.ltb_spec k 8).
  - rewrite Z.mod_pow2_bits_low by lia. reflexivity.
  - rewrite Z.mod_pow2_bits_high by lia. reflexivity.
Qed.

Lemma uint8_t_small (x : Z) : 0 <= x < 256 -> uint8_t x = x.
Proof. intros Hx. unfold uint8_t, wrap. apply Z.mod_small. lia. Qed.

Lemma existsb_eqb_In (k : Z) (ts : list Z) :
  existsb (Z.eqb k) ts = true <-> In k ts.
Proof.
  rewrite existsb_exists. split.
  - intros (t & Hin & Heq). apply Z.eqb_eq in Heq. congruence.
  - intros Hin. exists k. split; [assumption | apply Z.eqb_refl].
Qed.

(** Bit [k] of the accumulated mask tells whether type [k] matched. *)
Lemma scan_mask_bits (ts : list Z) :
  Forall (fun t => 0 <= t < 8) ts ->
  forall m k,
    (forall j, 8 <= j -> Z.testbit m j = false) ->
    0 <= k ->
    Z.testbit (scan_mask ts m) k = Z.testbit m k || existsb (Z.eqb k) ts.
Proof.
  induction 1 as [|t ts Ht _ IH]; intros m k Hm Hk; cbn [scan_mask fold_left existsb].
  - rewrite orb_false_r. reflexivity.
  - fold (scan_mask ts (uint8_t (Z.lor m (Z.shiftl 1 t)))).
    rewrite IH; [| |assumption].
    + rewrite testbit_uint8_t, Z.lor_spec by assumption.
      rewrite Z.shiftl_1_l, Z.pow2_bits_eqb by lia.
      rewrite (Z.eqb_sym t k).
      destruct (Z.ltb_spec k 8) as [Hlt|Hge]; cbn [andb].
      * rewrite orb_assoc. reflexivity.
      * rewrite (Hm k Hge).
        destruct (Z.eqb_spec k t) as [->|_]; [lia | reflexivity].
    + intros j Hj. rewrite testbit_uint8_t by lia.
      destruct (Z.ltb_spec j 8); [lia | reflexivity].
Qed.

Lemma last_cons_default (t : Z) (ts : list Z) (p : Z) :
  List.last (t :: ts) p = List.last ts t.
Proof.
  revert t p. induction ts as [|u ts IH]; intros t p; [reflexivity|].
  change (List.last (t :: u :: ts) p) with (List.last (u :: ts) p).
  rewrite (IH u p), (IH u t). reflexivity.
Qed.

Lemma scan_pos_last (ts : list Z) (p : Z) :
  Forall (fun t => 0 <= t < 8) ts -> scan_pos ts p = List.last ts p.
Proof.
  intros Hts. revert p.
  induction Hts as [|t ts Ht _ IH]; intros p; [reflexivity|].
  cbn [scan_pos fold_left]. fold (scan_pos ts (uint8_t t)).
  rewrite IH, uint8_t_small, last_cons_default by lia. reflexivity.
Qed.

Lemma land_zero_iff (b m : Z) :
  Z.land b m = 0
  <-> forall k, 0 <= k -> Z.testbit b k && Z.testbit m k = false.
Proof.
  split.
  - intros Hz k Hk. rewrite <- Z.land_spec, Hz. apply Z.bits_0.
  - intros Hbits. apply Z.bits_inj'. intros k Hk.
    rewrite Z.land_spec, Z.bits_0. auto.
Qed.

(** A mask test on the accumulated mask is a test on every matching type. *)
Lemma mask_test_types (b m : Z) (ts : list Z) :
  Forall (fun t => 0 <= t < 8) ts ->
  (forall k, 0 <= k -> Z.testbit b k = existsb (Z.eqb k) ts) ->
  Z.land b m = 0 <-> Forall (fun t => Z.testbit m t = false) ts.
Proof.
  intros Hts Hb. rewrite land_zero_iff, Forall_forall. split.
  - intros Hbits t Hin.
    assert (Ht : 0 <= t < 8) by (rewrite Forall_forall in Hts; auto).
    specialize (Hbits t (proj1 Ht)). rewrite Hb in Hbits by lia.
    apply list_elem_of_In, existsb_eqb_In in Hin. rewrite Hin in Hbits.
    exact Hbits.
  - intros Hall k Hk. rewrite Hb by assumption.
    destruct (existsb (Z.eqb k) ts) eqn:E; [|reflexivity].
    apply existsb_eqb_In, list_elem_of_In in E. cbn [andb]. auto.
Qed.

Lemma truthy_false_iff (x : Z) : truthy x = false <-> x = 0.
Proof.
  unfold truthy. destruct (Z.eqb_spec x 0); cbn [negb]; split; congruence.
Qed.

Lemma forallb_eqb_head_last (h : Z) (ts : list Z) (p : Z) :
  forallb (Z.eqb h) ts = true
  <-> Forall (fun t => t = List.last (h :: ts) p) (h :: ts).
Proof.
  rewrite forallb_forall. split.
  - intros Hall.
    assert (Hconst : forall t, In t (h :: ts) -> t = h).
    { intros t [->|Hin]; [reflexivity|].
      symmetry. apply Z.eqb_eq. auto. }
    assert (Hlast : List.last (h :: ts) p = h).
    { apply Hconst.
      destruct (exists_last (l := h :: ts)) as (l' & a & Heq); [discriminate|].
      rewrite Heq, last_last, in_app_iff. right. left. reflexivity. }
    rewrite Hlast. apply Forall_forall. intros t Hin.
    apply Hconst, list_elem_of_In. exact Hin.
  - intros Hall t Hin. rewrite Forall_forall in Hall.
    apply Z.eqb_eq.
    rewrite (Hall h) by (apply list_elem_of_In; left; reflexivity).
    rewrite (Hall t) by (apply list_elem_of_In; right; exact Hin).
    reflexivity.
Qed.

Lemma not_truthy_iff (x : Z) : negb (truthy x) = true <-> x = 0.
Proof. rewrite negb_true_iff. apply truthy_false_iff. Qed.

Lemma testbit_0xaf (t : Z) :
  0 <= t < 8 ->
  Z.testbit 0xaf t = false <-> (t =? 4) || (t =? 6) = true.
Proof.
  intros Ht.
  assert (Hcases : t = 0 \/ t = 1 \/ t = 2 \/ t = 3 \/ t = 4 \/ t = 5
                   \/ t = 6 \/ t = 7) by lia.
  destruct Hcases as [->|[->|[->|[->|[->|[->|[->| ->]]]]]]];
    vm_compute; split; congruence.
Qed.

(** The four tests after the scan, on the mask and position accumulated
    from the matching types [ts], follow the specified fallback order. *)
Lemma overlap_decision (ts : list Z) (def_type : Z) :
  ts <> [] ->
  Forall (fun t => 0 <= t < 8) ts ->
  let overlap_mtrr := scan_mask ts 0 in
  let overlap_mtrr_pos := scan_pos ts 0 in
  (if overlap_mtrr =? 0 then def_type
   else if negb (truthy (Z.land overlap_mtrr
                           (Z.lnot (Z.shiftl 1 overlap_mtrr_pos)))) then
     overlap_mtrr_pos
   else if truthy (Z.land overlap_mtrr 0x1) then MTRR_TYPE_UNCACHABLE
   else if negb (truthy (Z.land overlap_mtrr 0xaf)) then MTRR_TYPE_WRTHROUGH
   else overlap_mtrr_pos)
  = spec_overlap_type ts.
Proof.
  intros Hne Hts. cbv zeta.
  assert (Hb : forall k, 0 <= k ->
             Z.testbit (scan_mask ts 0) k = existsb (Z.eqb k) ts).
  { intros k Hk. rewrite scan_mask_bits; try assumption.
    - rewrite Z.bits_0. reflexivity.
    - intros j _. apply Z.bits_0. }
  rewrite (scan_pos_last ts 0 Hts).
  destruct ts as [|h ts']; [congruence|]. clear Hne.
  assert (Hh : 0 <= h < 8) by (inversion Hts; assumption).
  set (ts := h :: ts') in *. set (p := List.last ts 0).
  assert (Hp : 0 <= p < 8).
  { assert (Hin : In p ts).
    { subst p ts.
      destruct (exists_last (l := h :: ts')) as (l' & a & Heq); [discriminate|].
      rewrite Heq, last_last, in_app_iff. right. left. reflexivity. }
    rewrite Forall_forall in Hts. apply Hts, list_elem_of_In, Hin. }
  (* the mask is not empty *)
  destruct (Z.eqb_spec (scan_mask ts 0) 0) as [Hz|_].
  { pose proof (Hb h (proj1 Hh)) as Hbit. rewrite Hz, Z.bits_0 in Hbit.
    subst ts. cbn [existsb] in Hbit. rewrite Z.eqb_refl in Hbit. discriminate. }
  (* one distinct type *)
  assert (E2 : negb (truthy (Z.land (scan_mask ts 0) (Z.lnot (Z.shiftl 1 p))))
               = forallb (Z.eqb h) ts).
  { apply eq_true_iff_eq. rewrite not_truthy_iff.
    rewrite (mask_test_types _ _ ts Hts Hb).
    assert (Hhd : forallb (Z.eqb h) ts = forallb (Z.eqb h) ts').
    { subst ts. cbn [forallb]. rewrite Z.eqb_refl. reflexivity. }
    rewrite Hhd, (forallb_eqb_head_last h ts' 0). fold ts. fold p.
    rewrite !Forall_forall. split; intros Hall t Hin.
    - assert (Ht : 0 <= t < 8) by (rewrite Forall_forall in Hts; auto).
      specialize (Hall t Hin). cbv beta in Hall.
      rewrite Z.lnot_spec, Z.shiftl_1_l, Z.pow2_bits_eqb in Hall
        by first [apply Ht | apply Hp].
      apply negb_false_iff, Z.eqb_eq in Hall. congruence.
    - assert (Ht : 0 <= t < 8) by (rewrite Forall_forall in Hts; auto).
      rewrite Z.lnot_spec, Z.shiftl_1_l, Z.pow2_bits_eqb
        by first [apply Ht | apply Hp].
      rewrite (Hall t Hin), Z.eqb_refl. reflexivity. }
  (* one of them uncacheable *)
  assert (E3 : truthy (Z.land (scan_mask ts 0) 0x1)
               = existsb (Z.eqb MTRR_TYPE_UNCACHABLE) ts).
  { change 0x1 with (2 ^ 0). rewrite truthy_land_pow2 by lia.
    apply (Hb 0). lia. }
  (* write-through and write-back only *)
  assert (E4 : negb (truthy (Z.land (scan_mask ts 0) 0xaf))
               = forallb (fun u => (u =? MTRR_TYPE_WRTHROUGH)
                                   || (u =? MTRR_TYPE_WRBACK)) ts).
  { apply eq_true_iff_eq. rewrite not_truthy_iff.
    rewrite (mask_test_types _ _ ts Hts Hb), forallb_forall, Forall_forall.
    split; intros Hall t Hin.
    - apply list_elem_of_In in Hin.
      assert (Ht : 0 <= t < 8) by (rewrite Forall_forall in Hts; auto).
      apply (testbit_0xaf t Ht), Hall, Hin.
    - assert (Ht : 0 <= t < 8) by (rewrite Forall_forall in Hts; auto).
      apply (testbit_0xaf t Ht), Hall, list_elem_of_In, Hin. }
  rewrite E2, E3, E4. clear E2 E3 E4 Hb. subst p ts.
  unfold spec_overlap_type.
  destruct (forallb (Z.eqb h) (h :: ts')) eqn:Hone; [|reflexivity].
  (* all equal: the last type is the first *)
  cbn [forallb] in Hone. rewrite Z.eqb_refl in Hone. cbn [andb] in Hone.
  apply (forallb_eqb_head_last h ts' 0) in Hone.
  rewrite Forall_forall in Hone. symmetry. apply (Hone h). left.
Qed.

Lemma matching_types_nonneg (hwMtrr : hvm_hw_mtrr) (guestAddress : Z) :
  Forall (fun t => 0 <= t) (matching_types hwMtrr guestAddress).
Proof.
  unfold matching_types. apply Forall_forall. intros t Hin.
  apply list_elem_of_In, in_map_iff in Hin as (seg & <- & _).
  unfold var_range_type, MTRR_PHYSBASE_TYPE_MASK.
  apply Z.land_nonneg. right. lia.
Qed.

(** With the overlap flag set, every match goes through the accumulators
    and the four tests. *)
Lemma mtrrTypeOf_overlapped (physAddr_ : Z) (hwMtrr : hvm_hw_mtrr)
    (guestAddress type : Z) :
  var_ranges_apply hwMtrr guestAddress = true ->
  isVarMtrrOverlapped physAddr_ hwMtrr = true ->
  matching_types hwMtrr guestAddress <> [] ->
  Forall (fun t => t < 8) (matching_types hwMtrr guestAddress) ->
  mtrrTypeOf physAddr_ hwMtrr guestAddress type
  = (true, spec_overlap_type (matching_types hwMtrr guestAddress)).
Proof.
  intros Hvar Hov Hne Hlt8.
  assert (Hts : Forall (fun t => 0 <= t < 8) (matching_types hwMtrr guestAddress)).
  { pose proof (matching_types_nonneg hwMtrr guestAddress) as Hnn.
    rewrite Forall_forall in *. intros t Hin. split; auto. }
  pose proof (overlap_decision _
                (uint8_t (Z.land (msr_mtrr_def_type hwMtrr) 0xff)) Hne Hts)
    as Hdec.
  cbv zeta in Hdec. rewrite <- Hdec. clear Hdec.
  unfold var_ranges_apply in Hvar. cbv zeta in Hvar.
  apply andb_prop in Hvar as [He2 Hnf]. apply negb_true_iff in Hnf.
  unfold mtrrTypeOf. cbv zeta. rewrite He2, Hnf, Hov. cbn [negb].
  rewrite scanVarRanges_overlapped. cbv zeta.
  fold (matching_types hwMtrr guestAddress).
  set (b := scan_mask (matching_types hwMtrr guestAddress) 0).
  set (p := scan_pos (matching_types hwMtrr guestAddress) 0).
  destruct (b =? 0); [reflexivity|].
  destruct (negb (truthy (Z.land b (Z.lnot (Z.shiftl 1 p))))); [reflexivity|].
  destruct (truthy (Z.land b 1)); [reflexivity|].
  destruct (negb (truthy (Z.land b 175))); reflexivity.
Qed.

(** C4 (as amended).  On a host address width of 12 to 42 bits, when the
    variable ranges are consulted for an address, the overlap flag that
    [isVarMtrrOverlapped] computes over all counted ranges is set, and
    several valid ranges (with 3-bit memory types) contain the address, the
    type [mtrrType] stores is: the one distinct matching type if there is
    only one; else uncacheable if any matching type is uncacheable; else
    write-through if the matching types are write-through and write-back
    only; else the type of the last matching range.  The call succeeds, on
    the first use (fetching the MTRR record) as well as on later ones. *)
Theorem mtrrType_overlap_fallback (physAddr_ : Z) (hwMtrr : hvm_hw_mtrr)
    (getcontext : option hvm_hw_mtrr) (guestAddress type : Z) :
  12 <= physAddr_ <= 42 ->
  var_ranges_apply hwMtrr guestAddress = true ->
  isVarMtrrOverlapped physAddr_ hwMtrr = true ->
  (2 <= length (matching_types hwMtrr guestAddress))%nat ->
  Forall (fun t => t < 8) (matching_types hwMtrr guestAddress) ->
  mtrrType physAddr_ (Some hwMtrr) None guestAddress type
  = (true, spec_overlap_type (matching_types hwMtrr guestAddress), Some hwMtrr)
  /\ mtrrType physAddr_ getcontext (Some hwMtrr) guestAddress type
     = (true, spec_overlap_type (matching_types hwMtrr guestAddress),
        Some hwMtrr).
Proof.
  intros _ Hvar Hov Hlen Hlt8.
  assert (Hne : matching_types hwMtrr guestAddress <> []).
  { destruct (matching_types hwMtrr guestAddress); [cbn in Hlen; lia | discriminate]. }
  unfold mtrrType.
  rewrite (mtrrTypeOf_overlapped physAddr_ hwMtrr guestAddress type Hvar Hov Hne Hlt8).
  split; reflexivity.
Qed.

Lemma mtrrType_overlap_fallback_witness :
  matching_types two_range_mtrr 0x80001000
  = [MTRR_TYPE_WRBACK; MTRR_TYPE_WRTHROUGH]
  /\ mtrrType 36 None (Some two_range_mtrr) 0x80001000 0xff
     = (true, MTRR_TYPE_WRTHROUGH, Some two_range_mtrr).
Proof.
  split; [vm_compute; reflexivity|].
  refine (eq_trans
            (proj2 (mtrrType_overlap_fallback 36 two_range_mtrr None
                      0x80001000 0xff _ _ _ _ _)) _).
  - lia.
  - vm_compute; reflexivity.
  - vm_compute; reflexivity.
  - vm_compute. lia.
  - vm_compute. repeat constructor.
  - vm_compute; reflexivity.
Defined.

(** C4 (as stated) fails: on a host with 36 address bits, address
    0x80000000 is contained in two valid variable ranges, write-back and
    write-through, for which the fallback order gives write-through; but
    [isVarMtrrOverlapped] does not report the two ranges as overlapping
    (pages [0x80000, 0x80000] and [0x80001, 0x80002]), the scan ends at
    the first of them, and write-through is not what [mtrrType] yields. *)
Lemma mtrrType_two_matches_flag_clear :
  var_ranges_apply misaligned_pair_mtrr 0x80000000 = true
  /\ matching_types misaligned_pair_mtrr 0x80000000
     = [MTRR_TYPE_WRBACK; MTRR_TYPE_WRTHROUGH]
  /\ spec_overlap_type (matching_types misaligned_pair_mtrr 0x80000000)
     = MTRR_TYPE_WRTHROUGH
  /\ getMtrrRange 36 0x80000006 0xFFFFFF800 = (0x80000, 0x80000)
  /\ getMtrrRange 36 0x80001004 0xFFFFFE800 = (0x80001, 0x80002)
  /\ isVarMtrrOverlapped 36 misaligned_pair_mtrr = false
  /\ mtrrType 36 (Some misaligned_pair_mtrr) None 0x80000000 0xff
     = (true, 0xff, Some misaligned_pair_mtrr)
  /\ mtrrType 36 (Some misaligned_pair_mtrr) None 0x80000000 0xff
     <> (true,
         spec_overlap_type (matching_types misaligned_pair_mtrr 0x80000000),
         Some misaligned_pair_mtrr).
Proof. repeat split; vm_compute; congruence. Qed.

(** C2 (the code at the failing inputs).  With fixed ranges enabled and a
    write-back entry for address 0x1000, [mtrrType] returns [true] but
    leaves [type] as the caller had it (0xff); for address 0x90000, whose
    entry is uncacheable, it returns [false]; and for address 0x80001000,
    matched by the only variable range (write-back, nothing overlapping),
    it again leaves [type] as it was. *)
Theorem mtrrType_early_returns_skip_type :
  (fixed_range_applies one_range_mtrr 0x1000 = true
   /\ u8_fixed one_range_mtrr (fixed_index 0x1000) = MTRR_TYPE_WRBACK
   /\ mtrrType 36 (Some one_range_mtrr) None 0x1000 0xff
      = (true, 0xff, Some one_range_mtrr))
  /\ (fixed_range_applies one_range_mtrr 0x90000 = true
      /\ u8_fixed one_range_mtrr (fixed_index 0x90000) = MTRR_TYPE_UNCACHABLE
      /\ mtrrType 36 (Some one_range_mtrr) None 0x90000 0xff
         = (false, 0xff, Some one_range_mtrr))
  /\ (var_ranges_apply one_range_mtrr 0x80001000 = true
      /\ isVarMtrrOverlapped 36 one_range_mtrr = false
      /\ matching_types one_range_mtrr 0x80001000 = [MTRR_TYPE_WRBACK]
      /\ mtrrType 36 (Some one_range_mtrr) None 0x80001000 0xff
         = (true, 0xff, Some one_range_mtrr)).
Proof. repeat split; vm_compute; reflexivity. Qed.

(** ** Mapping *)

Lemma land_XC_PAGE_MASK (x : Z) :
  0 <= x < 2 ^ 64 -> Z.land x XC_PAGE_MASK = page_of x * XC_PAGE_SIZE.
Proof.
  intros Hx. unfold XC_PAGE_MASK, page_of, uint64_t, wrap.
  change (XC_PAGE_SIZE - 1) with (Z.ones 12).
  change XC_PAGE_SIZE with (2 ^ 12).
  rewrite <- Z.land_ones by lia.
  rewrite (Z.land_comm (Z.lnot (Z.ones 12))), Z.land_assoc.
  rewrite (Z.land_ones x 64), Z.mod_small by lia.
  rewrite <- Z.ldiff_land, Z.ldiff_ones_r by lia.
  rewrite Z.shiftr_div_pow2, Z.shiftl_mul_pow2 by lia.
  reflexivity.
Qed.

Lemma uint64_t_range (x : Z) : 0 <= uint64_t x < 2 ^ 64.
Proof. unfold uint64_t, wrap. apply Z.mod_pos_bound. lia. Qed.

(** The test of the source is the comparison of the two pages. *)
Lemma crosses_page_spec (address length : Z) :
  0 <= address < 2 ^ 64 ->
  crosses_page address length = true
  <-> page_of address <> page_of (uint64_t (address + length - 1)).
Proof.
  intros Ha. unfold crosses_page.
  rewrite !land_XC_PAGE_MASK by (assumption || apply uint64_t_range).
  rewrite negb_true_iff, Z.eqb_neq.
  change XC_PAGE_SIZE with 4096. split; intros Hne; lia.
Qed.

(** Without wrap-around the last byte is at [address + length - 1]. *)
Lemma last_byte_no_wrap (address length : Z) :
  0 <= address -> 1 <= length -> address + length <= 2 ^ 64 ->
  uint64_t (address + length - 1) = address + length - 1.
Proof. intros. unfold uint64_t, wrap. apply Z.mod_small. lia. Qed.

(** C5.  When [address] and [address + length - 1] lie in different pages,
    both mapping operations return [MAP_INVALID_PARAMETER] and leave
    [pointer], the translation cache, the page cache and the record of
    collaborator calls as they were: nothing was consulted. *)
Theorem cross_page_request_rejected {PC : Type} (ops : MapOps PC)
    (d : Mapper PC) (address length vcpu pointer : Z) :
  0 <= address < 2 ^ 64 ->
  page_of address <> page_of (uint64_t (address + length - 1)) ->
  mapPhysMemToHost ops d address length pointer
  = (MAP_INVALID_PARAMETER, pointer, d)
  /\ mapVirtMemToHost ops d address length vcpu pointer
     = (MAP_INVALID_PARAMETER, pointer, d).
Proof.
  intros Ha Hpages. apply (crosses_page_spec address length Ha) in Hpages.
  unfold mapPhysMemToHost, mapVirtMemToHost. rewrite Hpages.
  split; reflexivity.
Qed.

Lemma cross_page_request_rejected_witness :
  let ops := counting_map_ops (fun _ _ => 7) in
  let d := mk_Mapper (∅ : gmap Z Z) 0%nat [] in
  mapPhysMemToHost ops d 0xffe 4 NULL = (MAP_INVALID_PARAMETER, NULL, d)
  /\ mapVirtMemToHost ops d 0xffe 4 0 NULL = (MAP_INVALID_PARAMETER, NULL, d).
Proof.
  cbv zeta. apply cross_page_request_rejected.
  - lia.
  - vm_compute. discriminate.
Defined.

(** The page-cache half of [mapVirtMemToHost] changes neither the
    translation cache nor the record of calls. *)
Lemma mapVirtMemToHost_inv {PC : Type} (ops : MapOps PC) (d : Mapper PC)
    (address length vcpu pointer : Z)
    (rc : MapReturnCode) (p : Z) (d' : Mapper PC) :
  mapVirtMemToHost ops d address length vcpu pointer = (rc, p, d') ->
  addressCache_ d' = addressCache_ d.
Proof.
  unfold mapVirtMemToHost.
  destruct (crosses_page address length); [intros [= _ _ <-]; reflexivity|].
  cbn [record_call addressCache_ pageCache_ calls].
  destruct (addressCache_ d !! address) as [gfn|].
  - cbn [record_call addressCache_ pageCache_ calls].
    destruct (pageCache_update ops (pageCache_ d) gfn) as [pc' [[mrc mapped]|]];
      cbn [try_catch addressCache_ pageCache_ calls].
    + destruct (negb (bool_decide (mrc = MAP_SUCCESS))); [intros [= _ _ <-]; reflexivity|].
      destruct (mapped =? NULL); intros [= _ _ <-]; reflexivity.
    + intros [= _ _ <-]; reflexivity.
  - destruct (xc_translate_foreign_address ops vcpu address =? 0);
      [intros [= _ _ <-]; reflexivity|].
    cbn [record_call addressCache_ pageCache_ calls].
    destruct (pageCache_update ops (pageCache_ d)
                (xc_translate_foreign_address ops vcpu address))
      as [pc' [[mrc mapped]|]];
      cbn [try_catch addressCache_ pageCache_ calls].
    + destruct (negb (bool_decide (mrc = MAP_SUCCESS))); [intros [= _ _ <-]; reflexivity|].
      destruct (mapped =? NULL); intros [= _ _ <-]; reflexivity.
    + intros [= _ _ <-]; reflexivity.
Qed.

(** Splits a conjunction of facts about one outcome of a mapping call,
    where each fact holds by computation or is guarded by a condition that
    the case at hand contradicts. *)
Ltac map_call_cases :=
  repeat split; intros; try contradiction; repeat split; reflexivity.

(** C3 (as amended).  When [mapVirtMemToHost] misses the translation
    cache it asks the guest translation once.  A frame number of 0 yields
    [MAP_FAILED_GENERIC] without a page-cache request; any other frame
    number is what the page cache is asked for in this call.  In both cases
    the translation cache is left as it was. *)
Theorem mapVirtMemToHost_miss {PC : Type} (ops : MapOps PC) (d : Mapper PC)
    (address length vcpu pointer : Z)
    (rc : MapReturnCode) (p : Z) (d' : Mapper PC) :
  crosses_page address length = false ->
  addressCache_ d !! address = None ->
  mapVirtMemToHost ops d address length vcpu pointer = (rc, p, d') ->
  addressCache_ d' = addressCache_ d
  /\ translations (calls d') = S (translations (calls d))
  /\ (xc_translate_foreign_address ops vcpu address = 0 ->
      rc = MAP_FAILED_GENERIC /\ p = NULL
      /\ pageCache_ d' = pageCache_ d
      /\ calls d' = TranslateForeignAddress vcpu address
                    :: AddressCacheFind address :: calls d)
  /\ (xc_translate_foreign_address ops vcpu address <> 0 ->
      calls d' = PageCacheUpdate (xc_translate_foreign_address ops vcpu address)
                 :: TranslateForeignAddress vcpu address
                 :: AddressCacheFind address :: calls d).
Proof.
  intros Hpage Hmiss Hcall.
  split; [exact (mapVirtMemToHost_inv _ _ _ _ _ _ _ _ _ Hcall)|].
  revert Hcall. unfold mapVirtMemToHost. rewrite Hpage.
  cbn [record_call addressCache_ pageCache_ calls]. rewrite Hmiss.
  destruct (Z.eqb_spec (xc_translate_foreign_address ops vcpu address) 0)
    as [Hz|Hnz].
  - intros [= <- <- <-]. cbn [calls pageCache_]. map_call_cases.
  - cbn [record_call addressCache_ pageCache_ calls].
    destruct (pageCache_update ops (pageCache_ d)
                (xc_translate_foreign_address ops vcpu address))
      as [pc' [[mrc mapped]|]];
      cbn [try_catch addressCache_ pageCache_ calls].
    + destruct (negb (bool_decide (mrc = MAP_SUCCESS))).
      * intros [= <- <- <-]. cbn [calls]. map_call_cases.
      * destruct (mapped =? NULL); intros [= <- <- <-]; cbn [calls];
          map_call_cases.
    + intros [= <- <- <-]. cbn [calls]. map_call_cases.
Qed.

Lemma mapVirtMemToHost_miss_witness :
  let ops := counting_map_ops (fun _ _ => 7) in
  let d := mk_Mapper (∅ : gmap Z Z) 0%nat [] in
  addressCache_ (snd (mapVirtMemToHost ops d 0x1000 8 0 NULL)) = ∅.
Proof.
  cbv zeta.
  set (ops := counting_map_ops (fun _ _ => 7)).
  set (d := mk_Mapper (∅ : gmap Z Z) 0%nat []).
  destruct (mapVirtMemToHost ops d 0x1000 8 0 NULL) as [[rc p] d'] eqn:Hcall.
  apply (mapVirtMemToHost_miss ops d 0x1000 8 0 NULL rc p d').
  - vm_compute. reflexivity.
  - reflexivity.
  - exact Hcall.
Defined.

(** C3 (as stated) fails: after a miss whose translation succeeds (frame 7)
    the translation cache still has no entry for the address, and a second
    call for the same address translates again. *)
Lemma mapVirtMemToHost_miss_not_recorded :
  let ops := counting_map_ops (fun _ _ => 7) in
  let d := mk_Mapper (∅ : gmap Z Z) 0%nat [] in
  let first := mapVirtMemToHost ops d 0x1000 8 0 NULL in
  let second := mapVirtMemToHost ops (snd first) 0x1000 8 0 NULL in
  fst (fst first) = MAP_SUCCESS
  /\ addressCache_ (snd first) !! 0x1000 = None
  /\ addressCache_ (snd first) !! 0x1000 <> Some 7
  /\ translations (calls (snd first)) = 1%nat
  /\ translations (calls (snd second)) = 2%nat.
Proof. cbv zeta. repeat split; vm_compute; congruence. Qed.

(** C8.  After [cacheGuestVirtAddr] has succeeded for an address, the
    cache holds the frame number it translated, and a following
    [mapVirtMemToHost] on that address performs no guest translation: it
    finds the address in the cache and asks the page cache for the cached
    frame. *)
Theorem cached_address_not_retranslated {PC : Type} (ops ops' : MapOps PC)
    (alloc_ok : bool) (d d1 : Mapper PC) (address length vcpu pointer : Z)
    (rc : MapReturnCode) (p : Z) (d2 : Mapper PC) :
  cacheGuestVirtAddr ops alloc_ok d address = (true, d1) ->
  mapVirtMemToHost ops' d1 address length vcpu pointer = (rc, p, d2) ->
  addressCache_ d1 !! address = Some (xc_translate_foreign_address ops 0 address)
  /\ translations (calls d2) = translations (calls d1)
  /\ (crosses_page address length = false ->
      calls d2 = PageCacheUpdate (xc_translate_foreign_address ops 0 address)
                 :: AddressCacheFind address :: calls d1).
Proof.
  intros Hcache Hmap.
  assert (Hhit : addressCache_ d1 !! address
                 = Some (xc_translate_foreign_address ops 0 address)).
  { revert Hcache. unfold cacheGuestVirtAddr.
    destruct (xc_translate_foreign_address ops 0 address =? 0); [discriminate|].
    destruct alloc_ok; cbn [try_catch]; [|discriminate].
    intros [= <-]. cbn [addressCache_]. apply lookup_insert_eq. }
  split; [exact Hhit|].
  revert Hmap. unfold mapVirtMemToHost.
  destruct (crosses_page address length).
  { intros [= _ _ <-]. split; [reflexivity | discriminate]. }
  cbn [record_call addressCache_ pageCache_ calls]. rewrite Hhit.
  cbn [record_call addressCache_ pageCache_ calls].
  destruct (pageCache_update ops' (pageCache_ d1)
              (xc_translate_foreign_address ops 0 address))
    as [pc' [[mrc mapped]|]];
    cbn [try_catch addressCache_ pageCache_ calls].
  - destruct (negb (bool_decide (mrc = MAP_SUCCESS))).
    + intros [= _ _ <-]. cbn [calls]. split; reflexivity.
    + destruct (mapped =? NULL); intros [= _ _ <-]; cbn [calls];
        split; reflexivity.
  - intros [= _ _ <-]. cbn [calls]. split; reflexivity.
Qed.

Lemma cached_address_not_retranslated_witness :
  let ops := counting_map_ops (fun _ _ => 7) in
  let d := mk_Mapper (∅ : gmap Z Z) 0%nat [] in
  let d1 := snd (cacheGuestVirtAddr ops true d 0x1000) in
  translations (calls (snd (mapVirtMemToHost ops d1 0x1000 8 3 NULL)))
  = translations (calls d1).
Proof.
  cbv zeta.
  set (ops := counting_map_ops (fun _ _ => 7)).
  set (d := mk_Mapper (∅ : gmap Z Z) 0%nat []).
  set (d1 := snd (cacheGuestVirtAddr ops true d 0x1000)).
  destruct (mapVirtMemToHost ops d1 0x1000 8 3 NULL) as [[rc p] d2] eqn:Hmap.
  apply (cached_address_not_retranslated ops ops true d d1 0x1000 8 3 NULL
           rc p d2).
  - reflexivity.
  - exact Hmap.
Defined.

(** ** Page protection *)

Lemma memaccess_round_trip (read write execute : bool) :
  decode_memaccess (memaccess_of read write execute) = (read, write, execute).
Proof. destruct read, write, execute; reflexivity. Qed.

Lemma table_mem_access_faithful : stores_faithfully table_mem_access.
Proof.
  intros h a gfn h'. cbn. intros [= <-].
  rewrite lookup_insert_eq. reflexivity.
Qed.

(** C6.  [setPageProtection] maps each of the eight (read, write, execute)
    combinations to the access value of that name and never to
    [access_rx2rw]; on a hypervisor that stores faithfully, a successful
    [setPageProtection] followed by [getPageProtection] on the same address
    succeeds and decodes the same triple; [access_rx2rw] decodes as
    read and execute. *)
Theorem page_protection_round_trip {H : Type} (xc : MemAccessOps H) :
  stores_faithfully xc ->
  (memaccess_of false false false = access_n
   /\ memaccess_of true false false = access_r
   /\ memaccess_of false true false = access_w
   /\ memaccess_of false false true = access_x
   /\ memaccess_of true true false = access_rw
   /\ memaccess_of true false true = access_rx
   /\ memaccess_of false true true = access_wx
   /\ memaccess_of true true true = access_rwx)
  /\ (forall read write execute,
        memaccess_of read write execute <> access_rx2rw)
  /\ (forall (h h' : H) guestAddress read write execute rwx,
        setPageProtection xc h guestAddress read write execute = (true, h') ->
        getPageProtection xc h' guestAddress rwx
        = (true, (read, write, execute)))
  /\ (forall (h : H) guestAddress rwx,
        get_mem_access xc h (paddr_to_pfn guestAddress) = (0, access_rx2rw) ->
        getPageProtection xc h guestAddress rwx = (true, (true, false, true))).
Proof.
  intros Hfaithful. split; [repeat split|]. split; [|split].
  - intros [] [] []; discriminate.
  - intros h h' guestAddress read write execute rwx.
    unfold setPageProtection, getPageProtection.
    destruct (set_mem_access xc h (memaccess_of read write execute)
                (paddr_to_pfn guestAddress) 1) as [rc h1] eqn:Hset.
    destruct (truthy rc) eqn:Hrc; [discriminate|].
    intros [= <-]. apply truthy_false_iff in Hrc. subst rc.
    rewrite (Hfaithful _ _ _ _ Hset). cbn [truthy Z.eqb negb].
    rewrite memaccess_round_trip. reflexivity.
  - intros h guestAddress rwx Hget. unfold getPageProtection.
    rewrite Hget. reflexivity.
Qed.

Lemma page_protection_round_trip_witness :
  let h' := snd (setPageProtection table_mem_access ∅ 0x5123 true false true) in
  getPageProtection table_mem_access h' 0x5123 (false, false, false)
  = (true, (true, false, true)).
Proof.
  cbv zeta.
  pose proof (page_protection_round_trip table_mem_access
                table_mem_access_faithful) as (_ & _ & Hround & _).
  apply (Hround ∅). reflexivity.
Defined.

(** ** Writing registers *)

Lemma x86_32_assign_same (m : x86_32.member) (v : Z)
    (c : x86_32.vcpu_guest_context) :
  x86_32.user_regs (x86_32.assign m v c) m = uint32_t v.
Proof. cbn. apply fn_lookup_insert. Qed.

Lemma x86_32_assign_other (m m' : x86_32.member) (v : Z)
    (c : x86_32.vcpu_guest_context) :
  m <> m' ->
  x86_32.user_regs (x86_32.assign m v c) m' = x86_32.user_regs c m'.
Proof. intros Hne. cbn. apply fn_lookup_insert_ne. exact Hne. Qed.

(** The 32-bit view of the context that [setRegisters] writes back when the
    guest word size is 4 and [setEip] is false. *)
Lemma setRegisters_ctxt_x32 {H C : Type} (xc : VcpuContextOps H C)
    (regs : Registers.t) (ctxt : C) :
  x32_view_lawful xc ->
  x32 xc (setRegisters_ctxt xc 4 regs false ctxt)
  = x86_32.assign x86_32.edi (Registers.rdi regs)
      (x86_32.assign x86_32.esi (Registers.rsi regs)
        (x86_32.assign x86_32.ebp (Registers.rbp regs)
          (x86_32.assign x86_32.esp (Registers.rsp regs)
            (x86_32.assign x86_32.ebx (Registers.rbx regs)
              (x86_32.assign x86_32.edx (Registers.rdx regs)
                (x86_32.assign x86_32.ecx (Registers.rcx regs)
                  (x86_32.assign x86_32.eax (Registers.rax regs)
                     (x32 xc ctxt)))))))).
Proof.
  intros Hlaw. unfold setRegisters_ctxt.
  cbn [Z.eqb Pos.eqb]. cbv zeta. rewrite !Hlaw. reflexivity.
Qed.

(** C7.  With a guest word size of 4 and [setEip = false], [setRegisters]
    writes back the fetched context in which the eight 32-bit
    general-purpose registers hold the (narrowed) values of the snapshot,
    and [eip], every other member of [user_regs] and everything outside
    [user_regs] are as fetched. *)
Theorem setRegisters_32bit_frame {H C : Type} (xc : VcpuContextOps H C)
    (h : H) (vcpu : Z) (regs : Registers.t) (ctxt : C) :
  x32_view_lawful xc ->
  xc_vcpu_getcontext xc h vcpu = Some ctxt ->
  exists ctxt' : C,
    setRegisters xc 4 h vcpu regs false
    = (negb (fst (xc_vcpu_setcontext xc h vcpu ctxt') =? -1),
       snd (xc_vcpu_setcontext xc h vcpu ctxt'))
    /\ (forall m, In m gpr32 ->
          x86_32.user_regs (x32 xc ctxt') m = uint32_t (gpr32_source regs m))
    /\ x86_32.user_regs (x32 xc ctxt') x86_32.eip
       = x86_32.user_regs (x32 xc ctxt) x86_32.eip
    /\ (forall m, ~ In m gpr32 ->
          x86_32.user_regs (x32 xc ctxt') m = x86_32.user_regs (x32 xc ctxt) m)
    /\ x86_32.others (x32 xc ctxt') = x86_32.others (x32 xc ctxt).
Proof.
  intros Hlaw Hget.
  exists (setRegisters_ctxt xc 4 regs false ctxt).
  split.
  { unfold setRegisters. rewrite Hget.
    destruct (xc_vcpu_setcontext xc h vcpu _) as [rc h']. cbn [fst snd].
    destruct (rc =? -1); reflexivity. }
  rewrite (setRegisters_ctxt_x32 xc regs ctxt Hlaw).
  assert (Hframe : forall m, ~ In m gpr32 ->
            x86_32.user_regs
              (x86_32.assign x86_32.edi (Registers.rdi regs)
                (x86_32.assign x86_32.esi (Registers.rsi regs)
                  (x86_32.assign x86_32.ebp (Registers.rbp regs)
                    (x86_32.assign x86_32.esp (Registers.rsp regs)
                      (x86_32.assign x86_32.ebx (Registers.rbx regs)
                        (x86_32.assign x86_32.edx (Registers.rdx regs)
                          (x86_32.assign x86_32.ecx (Registers.rcx regs)
                            (x86_32.assign x86_32.eax (Registers.rax regs)
                               (x32 xc ctxt))))))))) m
            = x86_32.user_regs (x32 xc ctxt) m).
  { intros m Hout. unfold gpr32 in Hout. cbn [In] in Hout.
    rewrite !x86_32_assign_other by (intros Heq; apply Hout; tauto).
    reflexivity. }
  split; [|split; [|split]].
  - intros m Hin. unfold gpr32 in Hin. cbn [In] in Hin.
    destruct Hin as [<-|[<-|[<-|[<-|[<-|[<-|[<-|[<-|[]]]]]]]]];
      cbn [gpr32_source];
      repeat first [ apply x86_32_assign_same
                   | rewrite x86_32_assign_other by discriminate ].
  - apply Hframe. unfold gpr32. cbn [In].
    intros [?|[?|[?|[?|[?|[?|[?|[?|[]]]]]]]]]; discriminate.
  - exact Hframe.
  - reflexivity.
Qed.

Lemma table_vcpu_context_lawful : x32_view_lawful table_vcpu_context.
Proof. intros v c. reflexivity. Qed.

Lemma setRegisters_32bit_frame_witness :
  let xc := table_vcpu_context in
  let ctxt := (sample_ctxt32, sample_ctxt64) in
  exists ctxt',
    setRegisters xc 4 {[ 0 := ctxt ]} 0 sample_regs false
    = (negb (fst (xc_vcpu_setcontext xc {[ 0 := ctxt ]} 0 ctxt') =? -1),
       snd (xc_vcpu_setcontext xc {[ 0 := ctxt ]} 0 ctxt'))
    /\ (forall m, In m gpr32 ->
          x86_32.user_regs (x32 xc ctxt') m
          = uint32_t (gpr32_source sample_regs m))
    /\ x86_32.user_regs (x32 xc ctxt') x86_32.eip = 0x401000
    /\ (forall m, ~ In m gpr32 ->
          x86_32.user_regs (x32 xc ctxt') m
          = x86_32.user_regs sample_ctxt32 m)
    /\ x86_32.others (x32 xc ctxt') = [0x7; 0x1f; 0x80050033].
Proof.
  cbv zeta.
  apply (setRegisters_32bit_frame table_vcpu_context
           {[ 0 := (sample_ctxt32, sample_ctxt64) ]} 0 sample_regs
           (sample_ctxt32, sample_ctxt64)).
  - exact table_vcpu_context_lawful.
  - apply lookup_singleton_eq.
Defined.

(** ** MSR intercept set *)

(** C9.  [enableMsrExit] on a set without [msr] (the insertion finding
    memory) reports [oldValue = false] and adds [msr]; on a set with [msr]
    it reports [oldValue = true] and leaves the set as it is.
    [disableMsrExit] on a set with [msr] reports [oldValue = true] and
    removes [msr]; on a set without [msr] it reports [oldValue = false] and
    leaves the set as it is.  All four return [true]. *)
Theorem msr_exit_set (msrs_ : gset Z) (msr : Z) (oldValue alloc_ok : bool) :
  (msr ∉ msrs_ ->
   enableMsrExit true msrs_ msr oldValue = (true, false, {[msr]} ∪ msrs_)
   /\ msr ∈ ({[msr]} ∪ msrs_ : gset Z))
  /\ (msr ∈ msrs_ ->
      enableMsrExit alloc_ok msrs_ msr oldValue = (true, true, msrs_))
  /\ (msr ∈ msrs_ ->
      disableMsrExit msrs_ msr oldValue = (true, true, msrs_ ∖ {[msr]})
      /\ msr ∉ msrs_ ∖ {[msr]})
  /\ (msr ∉ msrs_ ->
      disableMsrExit msrs_ msr oldValue = (true, false, msrs_)).
Proof.
  unfold enableMsrExit, disableMsrExit, msrs_insert.
  split; [|split; [|split]]; intros Hin; destruct (decide (msr ∈ msrs_));
    try contradiction; cbn [try_catch]; try reflexivity.
  - split; [reflexivity|].
    apply elem_of_union_l, elem_of_singleton. reflexivity.
  - split; [reflexivity|].
    rewrite elem_of_difference, elem_of_singleton. tauto.
Qed.

Lemma msr_exit_set_witness :
  let '(_, old1, s1) := enableMsrExit true ∅ 0x176 true in
  let '(_, old2, s2) := enableMsrExit true s1 0x176 false in
  let '(_, old3, s3) := disableMsrExit s2 0x176 false in
  let '(_, old4, s4) := disableMsrExit s3 0x176 true in
  (old1, old2, old3, old4) = (false, true, true, false)
  /\ s1 = {[0x176]} ∪ ∅ /\ s2 = s1 /\ s3 = s1 ∖ {[0x176]} /\ s4 = s3.
Proof.
  destruct (msr_exit_set ∅ 0x176 true true) as (Hen1 & _ & _ & _).
  destruct Hen1 as [Hen1 Hin1]; [apply not_elem_of_empty|].
  rewrite Hen1.
  destruct (msr_exit_set ({[0x176]} ∪ ∅) 0x176 false true)
    as (_ & Hen2 & Hdis1 & _).
  rewrite (Hen2 Hin1).
  destruct (Hdis1 Hin1) as [Hdis1' Hout].
  rewrite Hdis1'.
  destruct (msr_exit_set (({[0x176]} ∪ ∅) ∖ {[0x176]}) 0x176 true true)
    as (_ & _ & _ & Hdis2).
  rewrite (Hdis2 Hout). repeat split.
Defined.

(** ** Resolving a domain name *)

Lemma getDomainId_step_other (xs : XenStore) (domainName : string)
    (domainId : Z) (entry : string) :
  xs_read_timeout xs ("/local/domain/" +:+ entry +:+ "/name")%string
  <> Some domainName ->
  getDomainId_step xs domainName domainId entry = domainId.
Proof.
  intros Hne. unfold getDomainId_step.
  destruct (xs_read_timeout xs _) as [nameCandidate|]; [|reflexivity].
  destruct (String.eqb_spec domainName nameCandidate) as [->|_];
    [congruence | reflexivity].
Qed.

Lemma getDomainId_loop_no_match (xs : XenStore) (domainName : string)
    (domains : list string) (domainId : Z) :
  (forall entry, In entry domains ->
     xs_read_timeout xs ("/local/domain/" +:+ entry +:+ "/name")%string
     <> Some domainName) ->
  fold_left (getDomainId_step xs domainName) domains domainId = domainId.
Proof.
  revert domainId.
  induction domains as [|entry domains IH]; intros domainId Hnone;
    [reflexivity|].
  cbn [fold_left].
  rewrite getDomainId_step_other by (apply Hnone; left; reflexivity).
  apply IH. intros e He. apply Hnone. right. exact He.
Qed.

(** C10.  With the store connection available: when the listing is not
    empty and no entry carries the requested name, [getDomainId] returns 0
    and throws nothing; it returns the same 0 when the last entry carrying
    the name is the control domain's entry ["0"]; and it throws exactly
    when the listing is empty. *)
Theorem getDomainId_unmatched_name (xs : XenStore) (xsh_ : bool)
    (domainName : string) :
  xsh_ = true \/ xs_open xs = true ->
  let domains := xs_directory xs "/local/domain"%string in
  let name_of entry :=
    xs_read_timeout xs ("/local/domain/" +:+ entry +:+ "/name")%string in
  (domains <> [] ->
   (forall entry, In entry domains -> name_of entry <> Some domainName) ->
   getDomainId xs xsh_ domainName = (Returned 0, true))
  /\ (forall before after,
        domains = before ++ "0"%string :: after ->
        name_of "0"%string = Some domainName ->
        (forall entry, In entry after -> name_of entry <> Some domainName) ->
        getDomainId xs xsh_ domainName = (Returned 0, true))
  /\ ((exists what, fst (getDomainId xs xsh_ domainName) = Threw what)
      <-> domains = []).
Proof.
  intros Havail. cbv zeta.
  assert (Hopen : negb xsh_ && negb (xs_open xs) = false).
  { destruct Havail as [-> | ->]; [reflexivity | apply andb_false_r]. }
  unfold getDomainId. rewrite Hopen.
  split; [|split].
  - intros Hne Hnone.
    destruct (xs_directory xs "/local/domain") as [|e es] eqn:Hdir;
      [congruence|].
    cbn [length Nat.eqb].
    rewrite getDomainId_loop_no_match by exact Hnone. reflexivity.
  - intros before after Hdir Hzero Hafter. rewrite Hdir.
    destruct (before ++ "0"%string :: after) as [|e es] eqn:Happ.
    { destruct before; discriminate. }
    cbn [length Nat.eqb]. rewrite <- Happ.
    rewrite fold_left_app. cbn [fold_left].
    rewrite getDomainId_loop_no_match by exact Hafter.
    unfold getDomainId_step at 1. rewrite Hzero, String.eqb_refl.
    reflexivity.
  - destruct (xs_directory xs "/local/domain") as [|e es].
    + cbn [length Nat.eqb fst]. split; [reflexivity | eauto].
    + cbn [length Nat.eqb fst]. split; [intros [what Hw]; discriminate | discriminate].
Qed.

Lemma getDomainId_unmatched_name_witness :
  getDomainId two_domain_store false "no-such-guest" = (Returned 0, true)
  /\ getDomainId two_domain_store false "Domain-0" = (Returned 0, true).
Proof.
  split.
  - apply (getDomainId_unmatched_name two_domain_store false "no-such-guest").
    + right. reflexivity.
    + discriminate.
    + intros entry [<-|[<-|[]]]; vm_compute; discriminate.
  - apply (proj1 (proj2 (getDomainId_unmatched_name two_domain_store false
                           "Domain-0" (or_intror eq_refl)))
             [] ["5"%string]).
    + reflexivity.
    + reflexivity.
    + intros entry [<-|[]]; vm_compute; discriminate.
Defined.

(* ===================================================================== *)
(** * Part III: further properties of the driver                          *)
(* ===================================================================== *)

(** ** Time-stamp counter *)

(** X1.  [tscSpeed] succeeds whenever the hypercall does and reports
    [gtsc_khz * 1000] reduced modulo [2 ^ 32]: the frequency in Hz exactly
    when [gtsc_khz] is at most 4294967, a wrapped value above that. *)
Theorem tscSpeed_wraps_at_32_bits (gtsc_khz speed : Z) :
  0 <= gtsc_khz < 2 ^ 32 ->
  fst (tscSpeed (Some gtsc_khz) speed) = true
  /\ 0 <= snd (tscSpeed (Some gtsc_khz) speed) < 2 ^ 32
  /\ (snd (tscSpeed (Some gtsc_khz) speed) = gtsc_khz * 1000
      <-> gtsc_khz <= 4294967).
Proof.
  intros Hk. cbn [tscSpeed fst snd]. unfold uint32_t, wrap.
  split; [reflexivity|].
  pose proof (Z.mod_pos_bound (gtsc_khz * 1000) (2 ^ 32) ltac:(lia)) as Hb.
  split; [exact Hb|]. split.
  - intros Heq. rewrite Heq in Hb. lia.
  - intros Hle. apply Z.mod_small. lia.
Qed.

Lemma tscSpeed_wraps_at_32_bits_witness :
  snd (tscSpeed (Some 3400000) 0) = 3400000000
  /\ snd (tscSpeed (Some 5000000) 0) <> 5000000000.
Proof.
  split.
  - apply (tscSpeed_wraps_at_32_bits 3400000 0); lia.
  - intros Heq.
    apply (proj2 (proj2 (tscSpeed_wraps_at_32_bits 5000000 0 ltac:(lia)))) in Heq.
    lia.
Defined.

(** ** Reading registers *)

(** X2.  A successful [registers] overwrites the whole structure: the
    result does not depend on what the caller's structure held, and [cr8]
    is 0.  A failed one returns [false] and leaves the structure alone. *)
Theorem registers_output_fresh (xen_version : Z) (hwCpu : hvm_hw_cpu.t)
    (regs regs' : Registers.t) :
  registers xen_version (Some hwCpu) regs
  = registers xen_version (Some hwCpu) regs'
  /\ Registers.cr8 (snd (registers xen_version (Some hwCpu) regs)) = 0
  /\ registers xen_version None regs = (false, regs).
Proof.
  unfold registers, copyHwCpu, guestX86Mode, hvm_long_mode_enabled.
  destruct (0x00040400 <=? xen_version); repeat split.
Qed.

(** X3.  On an interface revision before 4.4 the mode is read from the
    record's own mode field, whatever cr0, eflags, EFER and the
    code-segment attributes hold: 2, 4 and 8 give 16-, 32- and 64-bit, and
    every other value gives [ERROR]. *)
Theorem registers_mode_from_record (xen_version : Z) (hwCpu : hvm_hw_cpu.t)
    (regs : Registers.t) :
  xen_version < 0x00040400 ->
  let mode :=
    Registers.guest_x86_mode (snd (registers xen_version (Some hwCpu) regs)) in
  let field := hvm_hw_cpu.guest_x86_mode hwCpu in
  (mode = CS_TYPE_16 <-> field = 2)
  /\ (mode = CS_TYPE_32 <-> field = 4)
  /\ (mode = CS_TYPE_64 <-> field = 8)
  /\ (mode = ERROR <-> field <> 2 /\ field <> 4 /\ field <> 8).
Proof.
  intros Hv. cbv zeta. unfold registers.
  destruct (Z.leb_spec 0x00040400 xen_version) as [Hge|_]; [lia|].
  cbn [snd Registers.set_guest_x86_mode Registers.guest_x86_mode].
  unfold x86ModeTag.
  destruct (Z.eqb_spec (hvm_hw_cpu.guest_x86_mode hwCpu) 2) as [->|H2].
  { repeat split; try discriminate; try lia; intros; try reflexivity; lia. }
  destruct (Z.eqb_spec (hvm_hw_cpu.guest_x86_mode hwCpu) 4) as [->|H4].
  { repeat split; try discriminate; try lia; intros; try reflexivity; lia. }
  destruct (Z.eqb_spec (hvm_hw_cpu.guest_x86_mode hwCpu) 8) as [->|H8].
  { repeat split; try discriminate; try lia; intros; try reflexivity; lia. }
  repeat split; try discriminate; try lia; intros; try reflexivity;
    try contradiction; lia.
Qed.

Lemma registers_mode_from_record_witness :
  Registers.guest_x86_mode
    (snd (registers 0x00040300
            (Some (hvm_hw_cpu.mk 0 0 0 0 0 0 0 0 0 0 0 0 0 0 0 0 0 0 0 0 0
                                 0 0 0 0 0 0 0 0 0 0 0 0 0 0 0 4))
            blank_regs)) = CS_TYPE_32.
Proof.
  apply (registers_mode_from_record 0x00040300); [lia | reflexivity].
Defined.

(** ** Memory types: the remaining paths *)

Lemma mtrr_enabled_bit (def_type k : Z) :
  0 <= k < 8 ->
  truthy (Z.land (uint8_t (Z.shiftr def_type 10)) (2 ^ k))
  = Z.testbit def_type (k + 10).
Proof.
  intros Hk. rewrite truthy_land_pow2, testbit_uint8_t by lia.
  rewrite Z.shiftr_spec by lia.
  destruct (Z.ltb_spec k 8); [reflexivity | lia].
Qed.

(** X4.  With the MTRR enable flag (bit 11 of the default-type register)
    clear, every address is uncacheable, whatever the fixed table and the
    variable ranges hold.  With the flag set, an address that the fixed
    table does not resolve and that no valid variable range contains gets
    the default type, the low byte of the default-type register.  Both
    return [true]. *)
Theorem mtrrType_disabled_or_unmatched (physAddr_ : Z) (hwMtrr : hvm_hw_mtrr)
    (guestAddress type : Z) :
  (Z.testbit (msr_mtrr_def_type hwMtrr) 11 = false ->
   mtrrTypeOf physAddr_ hwMtrr guestAddress type
   = (true, MTRR_TYPE_UNCACHABLE))
  /\ (var_ranges_apply hwMtrr guestAddress = true ->
      matching_types hwMtrr guestAddress = [] ->
      mtrrTypeOf physAddr_ hwMtrr guestAddress type
      = (true, msr_mtrr_def_type hwMtrr mod 256)).
Proof.
  split.
  - intros Hoff. unfold mtrrTypeOf. cbv zeta.
    change 0x2 with (2 ^ 1). rewrite mtrr_enabled_bit by lia.
    change (1 + 10) with 11. rewrite Hoff. reflexivity.
  - intros Hvar Hnone. unfold var_ranges_apply in Hvar. cbv zeta in Hvar.
    apply andb_prop in Hvar as [He2 Hnf]. apply negb_true_iff in Hnf.
    unfold mtrrTypeOf. cbv zeta. rewrite He2, Hnf. cbn [negb].
    assert (Hdef : uint8_t (Z.land (msr_mtrr_def_type hwMtrr) 0xff)
                   = msr_mtrr_def_type hwMtrr mod 256).
    { change 0xff with (Z.ones 8). rewrite Z.land_ones by lia.
      unfold uint8_t, wrap. change (2 ^ 8) with 256.
      apply Z.mod_small. apply Z.mod_pos_bound. lia. }
    unfold matching_types in Hnone. apply map_eq_nil in Hnone.
    destruct (isVarMtrrOverlapped physAddr_ hwMtrr).
    + rewrite scanVarRanges_overlapped. cbv zeta. rewrite Hnone.
      cbn. rewrite Hdef. reflexivity.
    + rewrite scanVarRanges_not_overlapped, Hnone.
      cbn. rewrite Hdef. reflexivity.
Qed.

Lemma mtrrType_disabled_or_unmatched_witness :
  mtrrTypeOf 36 (mk_hvm_hw_mtrr 0 [] [] 8 0x406) 0x1000 0xff
  = (true, MTRR_TYPE_UNCACHABLE)
  /\ mtrrTypeOf 36 two_range_mtrr 0x7000 0xff = (true, 6).
Proof.
  split.
  - apply (proj1 (mtrrType_disabled_or_unmatched 36
                    (mk_hvm_hw_mtrr 0 [] [] 8 0x406) 0x1000 0xff)).
    reflexivity.
  - apply (proj2 (mtrrType_disabled_or_unmatched 36 two_range_mtrr
                    0x7000 0xff)); reflexivity.
Defined.

Lemma mtrrType_run_cached (physAddr_ : Z) (hwMtrr : hvm_hw_mtrr)
    (calls : list mtrrType_call) :
  mtrrType_run physAddr_ (Some hwMtrr) calls
  = (map (fun c => mtrrTypeOf physAddr_ hwMtrr (call_address c) (call_type c))
         calls,
     Some hwMtrr).
Proof.
  induction calls as [|c calls IH]; [reflexivity|].
  cbn [mtrrType_run mtrrType map]. rewrite IH.
  destruct (mtrrTypeOf physAddr_ hwMtrr (call_address c) (call_type c)).
  reflexivity.
Qed.

(** X5.  The MTRR record is fetched once per process.  In any run of calls
    that starts without a record, the calls whose fetch fails return
    [false] and leave [type] alone; the first call whose fetch succeeds and
    every call after it, however many and whatever the hypervisor would
    deliver by then, compute from the record of that first fetch, and the
    statics hold that record at the end. *)
Theorem mtrrType_fetches_once (physAddr_ : Z) (hwMtrr : hvm_hw_mtrr)
    (failed later : list mtrrType_call) (first : mtrrType_call) :
  Forall (fun c => call_getcontext c = None) failed ->
  call_getcontext first = Some hwMtrr ->
  mtrrType_run physAddr_ None (failed ++ first :: later)
  = (map (fun c => (false, call_type c)) failed
     ++ map (fun c => mtrrTypeOf physAddr_ hwMtrr (call_address c)
                        (call_type c))
            (first :: later),
     Some hwMtrr).
Proof.
  intros Hfailed Hfirst.
  induction Hfailed as [|c failed Hc _ IH].
  - cbn [app mtrrType_run mtrrType map]. rewrite Hfirst.
    rewrite mtrrType_run_cached.
    destruct (mtrrTypeOf physAddr_ hwMtrr (call_address first)
                (call_type first)).
    reflexivity.
  - cbn [app mtrrType_run mtrrType map]. rewrite Hc, IH. reflexivity.
Qed.

Lemma mtrrType_fetches_once_witness :
  mtrrType_run 36 None
    [mk_mtrrType_call None 0x1000 0xff;
     mk_mtrrType_call (Some two_range_mtrr) 0x80001000 0xff;
     mk_mtrrType_call (Some one_range_mtrr) 0x80001000 0xee;
     mk_mtrrType_call None 0x7000 0xdd]
  = ([(false, 0xff); (true, 4); (true, 4); (true, 6)], Some two_range_mtrr).
Proof.
  refine (eq_trans
            (mtrrType_fetches_once 36 two_range_mtrr
               [mk_mtrrType_call None 0x1000 0xff]
               [mk_mtrrType_call (Some one_range_mtrr) 0x80001000 0xee;
                mk_mtrrType_call None 0x7000 0xdd]
               (mk_mtrrType_call (Some two_range_mtrr) 0x80001000 0xff)
               _ _) _).
  - repeat constructor.
  - reflexivity.
  - vm_compute. reflexivity.
Defined.

Lemma fixed_band_index (seg base : Z) :
  0 <= seg -> (Z.shiftr seg 3 + base) * 8 + Z.land seg 7 = base * 8 + seg.
Proof.
  intros Hseg. rewrite Z.shiftr_div_pow2 by lia.
  change 7 with (Z.ones 3). rewrite Z.land_ones by lia.
  change (2 ^ 3) with 8. pose proof (Z.div_mod seg 8 ltac:(lia)). lia.
Qed.

(** X6.  Below 1 MiB with the fixed ranges enabled, [mtrrType] consults
    one byte of the fixed table: byte [a / 64K] below 0x80000, byte
    [8 + (a - 0x80000) / 16K] below 0xC0000 and byte
    [24 + (a - 0xC0000) / 4K] above; the index never leaves the 88 bytes of
    the table.  It returns whether that byte is nonzero and does not
    assign [type]. *)
Theorem mtrrType_fixed_band (physAddr_ : Z) (hwMtrr : hvm_hw_mtrr)
    (guestAddress type : Z) :
  0 <= guestAddress ->
  fixed_range_applies hwMtrr guestAddress = true ->
  let index :=
    if guestAddress <? 0x80000 then guestAddress / 0x10000
    else if guestAddress <? 0xc0000 then 8 + (guestAddress - 0x80000) / 0x4000
    else 24 + (guestAddress - 0xc0000) / 0x1000 in
  0 <= index < 88
  /\ mtrrTypeOf physAddr_ hwMtrr guestAddress type
     = (truthy (u8_fixed hwMtrr index), type).
Proof.
  intros Hnn Hfix. cbv zeta.
  assert (Hlt : guestAddress < 0x100000).
  { unfold fixed_range_applies in Hfix. cbv zeta in Hfix.
    apply andb_prop in Hfix as [Hfix _]. apply andb_prop in Hfix as [_ Hlt].
    apply Z.ltb_lt in Hlt. exact Hlt. }
  rewrite (mtrrTypeOf_fixed physAddr_ hwMtrr guestAddress type Hfix).
  unfold fixed_index. cbv zeta.
  assert (Hw : uint32_t guestAddress = guestAddress).
  { unfold uint32_t, wrap. apply Z.mod_small. lia. }
  rewrite Hw.
  destruct (Z.ltb_spec guestAddress 0x80000).
  - rewrite Z.shiftr_div_pow2 by lia. change (2 ^ 16) with 0x10000.
    split; [|reflexivity].
    pose proof (Z.div_mod guestAddress 0x10000 ltac:(lia)).
    pose proof (Z.mod_pos_bound guestAddress 0x10000 ltac:(lia)). lia.
  - destruct (Z.ltb_spec guestAddress 0xc0000).
    + assert (Hseg : 0 <= Z.shiftr (guestAddress - 0x80000) 14)
        by (apply Z.shiftr_nonneg; lia).
      rewrite fixed_band_index by exact Hseg.
      rewrite Z.shiftr_div_pow2 by lia. change (2 ^ 14) with 0x4000.
      split; [|reflexivity].
      pose proof (Z.div_mod (guestAddress - 0x80000) 0x4000 ltac:(lia)).
      pose proof (Z.mod_pos_bound (guestAddress - 0x80000) 0x4000 ltac:(lia)).
      lia.
    + assert (Hseg : 0 <= Z.shiftr (guestAddress - 0xc0000) 12)
        by (apply Z.shiftr_nonneg; lia).
      rewrite fixed_band_index by exact Hseg.
      rewrite Z.shiftr_div_pow2 by lia. change (2 ^ 12) with 0x1000.
      split; [|reflexivity].
      pose proof (Z.div_mod (guestAddress - 0xc0000) 0x1000 ltac:(lia)).
      pose proof (Z.mod_pos_bound (guestAddress - 0xc0000) 0x1000 ltac:(lia)).
      lia.
Qed.

Lemma mtrrType_fixed_band_witness :
  mtrrTypeOf 36 one_range_mtrr 0xc8123 0xff
  = (truthy (u8_fixed one_range_mtrr 32), 0xff).
Proof.
  apply (mtrrType_fixed_band 36 one_range_mtrr 0xc8123 0xff);
    [lia | reflexivity].
Defined.

(** X28.  On a host address width of 12 to 42 bits, while the overlap flag
    is clear, the first valid variable range that contains the address ends
    the scan: [mtrrType] returns whether that range's type is nonzero and
    does not assign [type]; ranges after it are not looked at. *)
Theorem mtrrType_first_match_without_overlap (physAddr_ : Z)
    (hwMtrr : hvm_hw_mtrr) (getcontext : option hvm_hw_mtrr)
    (guestAddress type t : Z) (ts : list Z) :
  12 <= physAddr_ <= 42 ->
  var_ranges_apply hwMtrr guestAddress = true ->
  isVarMtrrOverlapped physAddr_ hwMtrr = false ->
  matching_types hwMtrr guestAddress = t :: ts ->
  mtrrType physAddr_ getcontext (Some hwMtrr) guestAddress type
  = (truthy t, type, Some hwMtrr).
Proof.
  intros _ Hvar Hno Hmatch. unfold mtrrType.
  rewrite (mtrrTypeOf_single_match physAddr_ hwMtrr guestAddress type t ts
             Hvar Hno Hmatch).
  reflexivity.
Qed.

Lemma mtrrType_first_match_without_overlap_witness :
  mtrrType 36 None (Some one_range_mtrr) 0x80001000 0xff
  = (true, 0xff, Some one_range_mtrr).
Proof.
  apply (mtrrType_first_match_without_overlap 36 one_range_mtrr None
           0x80001000 0xff MTRR_TYPE_WRBACK []); [lia | reflexivity ..].
Defined.

(** ** Ranges of the variable MTRRs *)

Lemma getMtrrRange_split (physAddr_ base_msr mask_msr : Z) :
  getMtrrRange physAddr_ base_msr mask_msr
  = if Z.land (uint32_t mask_msr) 0x800 =? 0 then (0, 0)
    else (mtrr_base_pages base_msr,
          uint64_t (mtrr_base_pages base_msr
                    + mtrr_size_pages physAddr_ mask_msr - 1)).
Proof. reflexivity. Qed.

Lemma getMtrrRange_free (physAddr_ base_msr mask_msr : Z) :
  Z.testbit mask_msr 11 = false ->
  getMtrrRange physAddr_ base_msr mask_msr = (0, 0).
Proof.
  intros Hfree. rewrite getMtrrRange_split.
  change 0x800 with (2 ^ 11). rewrite land_pow2_testbit by lia.
  unfold uint32_t, wrap. rewrite Z.mod_pow2_bits_low by lia.
  rewrite Hfree. reflexivity.
Qed.

(** X7.  With fewer than two variable ranges in the capability register
    nothing can overlap.  With two or more, two free ranges (valid bit
    clear) among them already set the overlap flag: both are the empty
    range [0, 0], which the containment test takes as overlapping. *)
Theorem isVarMtrrOverlapped_free_ranges (physAddr_ : Z) (hwMtrr : hvm_hw_mtrr) :
  let num_var_ranges := Z.to_nat (uint8_t (msr_mtrr_cap hwMtrr)) in
  ((num_var_ranges < 2)%nat -> isVarMtrrOverlapped physAddr_ hwMtrr = false)
  /\ (forall i seg : nat,
        (i < seg < num_var_ranges)%nat ->
        Z.testbit (mtrr_var hwMtrr (i * 2 + 1)) 11 = false ->
        Z.testbit (mtrr_var hwMtrr (seg * 2 + 1)) 11 = false ->
        isVarMtrrOverlapped physAddr_ hwMtrr = true).
Proof.
  cbv zeta. unfold isVarMtrrOverlapped. cbv zeta.
  set (n := Z.to_nat (uint8_t (msr_mtrr_cap hwMtrr))). split.
  - intros Hn. destruct n as [|[|n]]; [reflexivity | | lia].
    cbn [seq existsb Nat.sub].
    destruct (getMtrrRange physAddr_ _ _) as [base_pre end_pre].
    reflexivity.
  - intros i seg Hlt Hi Hseg. apply existsb_exists. exists i.
    split; [apply in_seq; lia|].
    rewrite (getMtrrRange_free _ _ _ Hi).
    apply existsb_exists. exists seg.
    split; [apply in_seq; lia|].
    rewrite (getMtrrRange_free _ _ _ Hseg). reflexivity.
Qed.

Lemma isVarMtrrOverlapped_free_ranges_witness :
  isVarMtrrOverlapped 36 one_range_mtrr = false
  /\ isVarMtrrOverlapped 36
       (mk_hvm_hw_mtrr 0
          [0x80000006; 0xFFF000800; 0; 0; 0; 0; 0; 0; 0; 0; 0; 0; 0; 0; 0; 0]
          [] 8 0xC00) = true.
Proof.
  split.
  - apply (proj1 (isVarMtrrOverlapped_free_ranges 36 one_range_mtrr)).
    vm_compute. lia.
  - apply (proj2 (isVarMtrrOverlapped_free_ranges 36 _) 1%nat 2%nat).
    + vm_compute. lia.
    + reflexivity.
    + reflexivity.
Defined.

Lemma pow2_regions_checked_true : pow2_regions_checked = true.
Proof. vm_compute. reflexivity. Qed.

Lemma pow2_region_size (physAddr_ k : Z) :
  12 <= k <= physAddr_ -> physAddr_ <= 42 ->
  (Z.land (uint32_t (pow2_region_mask physAddr_ k)) 0x800 =? 0) = false
  /\ mtrr_size_pages physAddr_ (pow2_region_mask physAddr_ k) = 2 ^ (k - 12).
Proof.
  intros Hk Hp.
  pose proof pow2_regions_checked_true as Hall.
  unfold pow2_regions_checked in Hall. rewrite forallb_forall in Hall.
  specialize (Hall (Z.to_nat (physAddr_ - 12)) ltac:(apply in_seq; lia)).
  rewrite forallb_forall in Hall.
  specialize (Hall (Z.to_nat (k - 12)) ltac:(apply in_seq; lia)).
  cbv zeta in Hall.
  replace (12 + Z.of_nat (Z.to_nat (physAddr_ - 12))) with physAddr_ in Hall by lia.
  replace (12 + Z.of_nat (Z.to_nat (k - 12))) with k in Hall by lia.
  apply andb_prop in Hall as [Hvalid Hsize].
  apply negb_true_iff in Hvalid. apply Z.eqb_eq in Hsize. auto.
Qed.

Lemma mtrr_base_pages_spec (base_msr : Z) :
  0 <= base_msr < 2 ^ 64 ->
  mtrr_base_pages base_msr = (base_msr / 4096) mod 2 ^ 32.
Proof.
  intros Hb. unfold mtrr_base_pages, uint32_t, wrap, XC_PAGE_SHIFT.
  change (32 - 12) with 20. change 4096 with (2 ^ 12).
  rewrite <- (Z.shiftr_div_pow2 base_msr 12) by lia.
  apply Z.bits_inj'. intros i Hi.
  rewrite Z.lor_spec.
  destruct (Z.ltb_spec i 32) as [Hlt|Hge].
  - rewrite !Z.mod_pow2_bits_low by lia.
    rewrite !Z.shiftr_spec by lia.
    destruct (Z.ltb_spec i 20) as [Hlo|Hhi].
    + rewrite Z.shiftl_spec_low by lia.
      rewrite Z.mod_pow2_bits_low by lia. reflexivity.
    + rewrite Z.shiftl_spec by lia.
      rewrite Z.mod_pow2_bits_low by lia.
      rewrite Z.shiftr_spec by lia.
      rewrite Z.mod_pow2_bits_high by lia.
      replace (i - 20 + 32) with (i + 12) by lia.
      apply orb_false_r.
  - rewrite !Z.mod_pow2_bits_high by lia.
    rewrite Z.shiftr_spec by lia.
    rewrite Z.mod_pow2_bits_high by lia. reflexivity.
Qed.

(** X8.  For a valid register pair whose mask describes a region of
    [2 ^ k] bytes ([12 <= k <= physAddr_ <= 42]), [getMtrrRange] returns
    the page of the base (at 32 bits) and that page plus the region's
    number of pages minus one; for a base below [2 ^ 44] the first is the
    base's page itself. *)
Theorem getMtrrRange_pow2_region (physAddr_ k base_msr : Z) :
  12 <= k <= physAddr_ -> physAddr_ <= 42 ->
  0 <= base_msr < 2 ^ 64 ->
  let first := (base_msr / 4096) mod 2 ^ 32 in
  getMtrrRange physAddr_ base_msr (pow2_region_mask physAddr_ k)
  = (first, first + 2 ^ (k - 12) - 1)
  /\ (base_msr < 2 ^ 44 -> first = base_msr / 4096).
Proof.
  intros Hk Hp Hb. cbv zeta.
  destruct (pow2_region_size physAddr_ k Hk Hp) as [Hvalid Hsize].
  rewrite getMtrrRange_split, Hvalid, Hsize, mtrr_base_pages_spec by exact Hb.
  pose proof (Z.mod_pos_bound (base_msr / 4096) (2 ^ 32) ltac:(lia)) as Hfirst.
  set (first := (base_msr / 4096) mod 2 ^ 32) in *.
  assert (Hpow : 1 <= 2 ^ (k - 12) <= 2 ^ 30).
  { split.
    - pose proof (Z.pow_pos_nonneg 2 (k - 12) ltac:(lia) ltac:(lia)). lia.
    - apply Z.pow_le_mono_r; lia. }
  split.
  - f_equal. unfold uint64_t, wrap. apply Z.mod_small.
    change (2 ^ 30) with 1073741824 in Hpow.
    change (2 ^ 32) with 4294967296 in Hfirst.
    change (2 ^ 64) with 18446744073709551616. lia.
  - intros Hsmall. subst first. apply Z.mod_small. split.
    + apply Z.div_pos; lia.
    + apply Z.div_lt_upper_bound; [lia|].
      change (2 ^ 44) with (4096 * 2 ^ 32) in Hsmall. exact Hsmall.
Qed.

Lemma getMtrrRange_pow2_region_witness :
  getMtrrRange 36 0x80000006 0xFFF000800 = (0x80000, 0x80fff).
Proof.
  apply (getMtrrRange_pow2_region 36 24 0x80000006); lia.
Defined.

(** ** Writing registers: the other cases *)

Lemma x86_64_assign_same (m : x86_64.member) (v : Z)
    (c : x86_64.vcpu_guest_context) :
  x86_64.user_regs (x86_64.assign m v c) m = uint64_t v.
Proof. cbn. apply fn_lookup_insert. Qed.

Lemma x86_64_assign_other (m m' : x86_64.member) (v : Z)
    (c : x86_64.vcpu_guest_context) :
  m <> m' ->
  x86_64.user_regs (x86_64.assign m v c) m' = x86_64.user_regs c m'.
Proof. intros Hne. cbn. apply fn_lookup_insert_ne. exact Hne. Qed.

Lemma setRegisters_ctxt_x64 {H C : Type} (xc : VcpuContextOps H C)
    (guestWidth_ : Z) (regs : Registers.t) (ctxt : C) :
  x64_view_lawful xc ->
  guestWidth_ <> 4 ->
  x64 xc (setRegisters_ctxt xc guestWidth_ regs false ctxt)
  = x86_64.assign x86_64.r15 (Registers.r15 regs)
     (x86_64.assign x86_64.r14 (Registers.r14 regs)
      (x86_64.assign x86_64.r13 (Registers.r13 regs)
       (x86_64.assign x86_64.r12 (Registers.r12 regs)
        (x86_64.assign x86_64.r11 (Registers.r11 regs)
         (x86_64.assign x86_64.r10 (Registers.r10 regs)
          (x86_64.assign x86_64.r9 (Registers.r9 regs)
           (x86_64.assign x86_64.r8 (Registers.r8 regs)
            (x86_64.assign x86_64.rdi (Registers.rdi regs)
             (x86_64.assign x86_64.rsi (Registers.rsi regs)
              (x86_64.assign x86_64.rbp (Registers.rbp regs)
               (x86_64.assign x86_64.rsp (Registers.rsp regs)
                (x86_64.assign x86_64.rbx (Registers.rbx regs)
                 (x86_64.assign x86_64.rdx (Registers.rdx regs)
                  (x86_64.assign x86_64.rcx (Registers.rcx regs)
                   (x86_64.assign x86_64.rax (Registers.rax regs)
                      (x64 xc ctxt)))))))))))))))).
Proof.
  intros Hlaw Hw. unfold setRegisters_ctxt.
  destruct (Z.eqb_spec guestWidth_ 4) as [->|_]; [congruence|].
  cbv zeta. rewrite !Hlaw. reflexivity.
Qed.

(** X9.  With any guest word size other than 4 and [setEip = false], the
    context that [setRegisters] writes back has, in its 64-bit view, the
    sixteen general-purpose registers of the snapshot; the instruction
    pointer, every other member of [user_regs] and everything outside
    [user_regs] are as fetched. *)
Theorem setRegisters_64bit_frame {H C : Type} (xc : VcpuContextOps H C)
    (guestWidth_ : Z) (regs : Registers.t) (ctxt : C) :
  x64_view_lawful xc ->
  guestWidth_ <> 4 ->
  let ctxt' := setRegisters_ctxt xc guestWidth_ regs false ctxt in
  (forall m, In m gpr64 ->
     x86_64.user_regs (x64 xc ctxt') m = uint64_t (gpr64_source regs m))
  /\ (forall m, ~ In m gpr64 ->
        x86_64.user_regs (x64 xc ctxt') m = x86_64.user_regs (x64 xc ctxt) m)
  /\ x86_64.others (x64 xc ctxt') = x86_64.others (x64 xc ctxt).
Proof.
  intros Hlaw Hw. cbv zeta.
  rewrite (setRegisters_ctxt_x64 xc guestWidth_ regs ctxt Hlaw Hw).
  split; [|split].
  - intros m Hin. unfold gpr64 in Hin. cbn [In] in Hin.
    repeat (destruct Hin as [<-|Hin];
            [cbn [gpr64_source];
             repeat first [ apply x86_64_assign_same
                          | rewrite x86_64_assign_other by discriminate ]|]).
    contradiction.
  - intros m Hout.
    rewrite !x86_64_assign_other
      by (intros <-; apply Hout; unfold gpr64; cbn [In];
          repeat first [left; reflexivity | right]).
    reflexivity.
  - reflexivity.
Qed.

Lemma table_vcpu_context_lawful64 : x64_view_lawful table_vcpu_context.
Proof. intros v c. reflexivity. Qed.

Lemma setRegisters_64bit_frame_witness :
  let ctxt' :=
    setRegisters_ctxt table_vcpu_context 8 sample_regs false
      (sample_ctxt32, sample_ctxt64) in
  x86_64.user_regs (x64 table_vcpu_context ctxt') x86_64.rax
  = 0x1122334455667788
  /\ x86_64.user_regs (x64 table_vcpu_context ctxt') x86_64.eip = 0.
Proof.
  cbv zeta.
  destruct (setRegisters_64bit_frame table_vcpu_context 8 sample_regs
              (sample_ctxt32, sample_ctxt64) table_vcpu_context_lawful64
              ltac:(lia)) as (Hgpr & Hframe & _).
  split.
  - rewrite (Hgpr x86_64.rax) by (left; reflexivity). reflexivity.
  - rewrite (Hframe x86_64.eip); [reflexivity|].
    unfold gpr64. cbn [In].
    intros Hin. repeat (destruct Hin as [Hin|Hin]; [discriminate|]).
    exact Hin.
Defined.

Lemma setRegisters_ctxt_setEip {H C : Type} (xc : VcpuContextOps H C)
    (guestWidth_ : Z) (regs : Registers.t) (ctxt : C) :
  setRegisters_ctxt xc guestWidth_ regs true ctxt
  = let ctxt' := setRegisters_ctxt xc guestWidth_ regs false ctxt in
    if guestWidth_ =? 4 then
      with_x32 xc (x86_32.assign x86_32.eip (Registers.rip regs)
                     (x32 xc ctxt')) ctxt'
    else
      with_x64 xc (x86_64.assign x86_64.eip (Registers.rip regs)
                     (x64 xc ctxt')) ctxt'.
Proof.
  unfold setRegisters_ctxt. destruct (guestWidth_ =? 4); reflexivity.
Qed.

(** X10.  [setEip = true] adds one assignment to what [setEip = false]
    does: the instruction pointer member receives [rip], narrowed to 32 bits
    in the 32-bit layout; the registers and everything else are as without
    it. *)
Theorem setRegisters_setEip {H C : Type} (xc : VcpuContextOps H C)
    (guestWidth_ : Z) (regs : Registers.t) (ctxt : C) :
  x32_view_lawful xc ->
  x64_view_lawful xc ->
  (guestWidth_ = 4 ->
   x32 xc (setRegisters_ctxt xc guestWidth_ regs true ctxt)
   = x86_32.assign x86_32.eip (Registers.rip regs)
       (x32 xc (setRegisters_ctxt xc guestWidth_ regs false ctxt)))
  /\ (guestWidth_ <> 4 ->
      x64 xc (setRegisters_ctxt xc guestWidth_ regs true ctxt)
      = x86_64.assign x86_64.eip (Registers.rip regs)
          (x64 xc (setRegisters_ctxt xc guestWidth_ regs false ctxt))).
Proof.
  intros Hlaw32 Hlaw64. rewrite setRegisters_ctxt_setEip. cbv zeta.
  destruct (Z.eqb_spec guestWidth_ 4) as [Hw|Hw]; split; intros Hw';
    try contradiction.
  - apply Hlaw32.
  - apply Hlaw64.
Qed.

Lemma setRegisters_setEip_witness :
  x86_32.user_regs
    (x32 table_vcpu_context
       (setRegisters_ctxt table_vcpu_context 4 sample_regs true
          (sample_ctxt32, sample_ctxt64))) x86_32.eip = 0x77001000.
Proof.
  rewrite (proj1 (setRegisters_setEip table_vcpu_context 4 sample_regs
                    (sample_ctxt32, sample_ctxt64)
                    table_vcpu_context_lawful table_vcpu_context_lawful64)
             eq_refl).
  reflexivity.
Defined.

(** X11.  [setRegisters] returns [true] exactly when the context could be
    fetched and writing it back did not return -1 (any other return code of
    [xc_vcpu_setcontext] counts as success).  When the fetch fails nothing
    is written: the hypervisor state is as before. *)
Theorem setRegisters_success {H C : Type} (xc : VcpuContextOps H C)
    (guestWidth_ : Z) (h : H) (vcpu : Z) (regs : Registers.t)
    (setEip : bool) :
  (fst (setRegisters xc guestWidth_ h vcpu regs setEip) = true
   <-> exists ctxt,
         xc_vcpu_getcontext xc h vcpu = Some ctxt
         /\ fst (xc_vcpu_setcontext xc h vcpu
                   (setRegisters_ctxt xc guestWidth_ regs setEip ctxt)) <> -1)
  /\ (xc_vcpu_getcontext xc h vcpu = None ->
      setRegisters xc guestWidth_ h vcpu regs setEip = (false, h)).
Proof.
  unfold setRegisters.
  destruct (xc_vcpu_getcontext xc h vcpu) as [ctxt|].
  - split; [|discriminate].
    destruct (xc_vcpu_setcontext xc h vcpu _) as [rc h'] eqn:Hset.
    destruct (Z.eqb_spec rc (-1)) as [->|Hrc]; cbn [fst]; split.
    + discriminate.
    + intros (c & [= <-] & Hne). rewrite Hset in Hne. cbn in Hne. congruence.
    + intros _. exists ctxt. rewrite Hset. auto.
    + reflexivity.
  - split; [|reflexivity]. cbn [fst]. split; [discriminate|].
    intros (c & Hc & _). discriminate.
Qed.

Lemma setRegisters_success_witness :
  setRegisters table_vcpu_context 4 ∅ 0 sample_regs false = (false, ∅).
Proof.
  apply (proj2 (setRegisters_success table_vcpu_context 4 ∅ 0 sample_regs
                  false)).
  reflexivity.
Defined.

(** ** Page protection: frames, failures, inverse *)

Lemma paddr_to_pfn_page (pa : Z) :
  0 <= pa < 2 ^ 64 -> paddr_to_pfn pa = page_of pa.
Proof.
  intros Hpa. unfold paddr_to_pfn, page_of, uint64_t, wrap, XC_PAGE_SHIFT.
  rewrite Z.shiftr_div_pow2 by lia. change XC_PAGE_SIZE with (2 ^ 12).
  apply Z.mod_small. split.
  - apply Z.div_pos; lia.
  - apply Z.div_lt_upper_bound; lia.
Qed.

(** X12.  Protection is per frame: on a hypervisor that stores faithfully,
    after a successful [setPageProtection] at one address,
    [getPageProtection] at any address of the same page reads the triple
    that was set. *)
Theorem page_protection_same_page {H : Type} (xc : MemAccessOps H)
    (h h' : H) (guestAddress guestAddress' : Z)
    (read write execute : bool) (rwx : bool * bool * bool) :
  stores_faithfully xc ->
  0 <= guestAddress < 2 ^ 64 ->
  0 <= guestAddress' < 2 ^ 64 ->
  page_of guestAddress = page_of guestAddress' ->
  setPageProtection xc h guestAddress read write execute = (true, h') ->
  getPageProtection xc h' guestAddress' rwx = (true, (read, write, execute)).
Proof.
  intros Hfaithful Ha Ha' Hpage.
  unfold setPageProtection, getPageProtection.
  assert (Hpfn : paddr_to_pfn guestAddress' = paddr_to_pfn guestAddress)
    by (rewrite !paddr_to_pfn_page by assumption; congruence).
  rewrite Hpfn.
  destruct (set_mem_access xc h (memaccess_of read write execute)
              (paddr_to_pfn guestAddress) 1) as [rc h1] eqn:Hset.
  destruct (truthy rc) eqn:Hrc; [discriminate|].
  intros [= <-]. apply truthy_false_iff in Hrc. subst rc.
  rewrite (Hfaithful _ _ _ _ Hset). cbn [truthy Z.eqb negb].
  rewrite memaccess_round_trip. reflexivity.
Qed.

Lemma page_protection_same_page_witness :
  let h' := snd (setPageProtection table_mem_access ∅ 0x5123 true true false) in
  getPageProtection table_mem_access h' 0x5ff8 (false, false, false)
  = (true, (true, true, false)).
Proof.
  cbv zeta.
  apply (page_protection_same_page table_mem_access ∅ _ 0x5123 0x5ff8
           true true false (false, false, false) table_mem_access_faithful);
    try lia; reflexivity.
Defined.

(** X13.  Both protection operations return [true] exactly when the
    hypercall returns 0; a failed [getPageProtection] leaves the caller's
    three flags as they were, and an access value outside the nine the
    driver names decodes as no access at all. *)
Theorem page_protection_failures {H : Type} (xc : MemAccessOps H) (h : H)
    (guestAddress : Z) (read write execute : bool)
    (rwx : bool * bool * bool) :
  (fst (setPageProtection xc h guestAddress read write execute) = true
   <-> fst (set_mem_access xc h (memaccess_of read write execute)
              (paddr_to_pfn guestAddress) 1) = 0)
  /\ (fst (getPageProtection xc h guestAddress rwx) = true
      <-> fst (get_mem_access xc h (paddr_to_pfn guestAddress)) = 0)
  /\ (fst (get_mem_access xc h (paddr_to_pfn guestAddress)) <> 0 ->
      getPageProtection xc h guestAddress rwx = (false, rwx))
  /\ (forall code,
        get_mem_access xc h (paddr_to_pfn guestAddress)
        = (0, access_other code) ->
        getPageProtection xc h guestAddress rwx
        = (true, (false, false, false))).
Proof.
  unfold setPageProtection, getPageProtection.
  destruct (set_mem_access xc h _ _ 1) as [rc h'].
  destruct (get_mem_access xc h _) as [rc' a]. cbn [fst].
  unfold truthy.
  destruct (Z.eqb_spec rc 0), (Z.eqb_spec rc' 0); cbn [negb fst];
    repeat split; try congruence; try discriminate;
    intros; try contradiction; try congruence.
  all: match goal with Heq : (_, _) = (_, _) |- _ => inversion Heq; subst end;
    try reflexivity; congruence.
Qed.

Lemma page_protection_failures_witness :
  getPageProtection
    (mk_MemAccessOps (gmap Z access_t)
       (fun h _ _ _ => (-1, h)) (fun _ _ => (-1, access_n)))
    ∅ 0x5123 (true, false, true)
  = (false, (true, false, true)).
Proof.
  apply (proj1 (proj2 (proj2
           (page_protection_failures
              (mk_MemAccessOps (gmap Z access_t)
                 (fun h _ _ _ => (-1, h)) (fun _ _ => (-1, access_n)))
              ∅ 0x5123 false false false (true, false, true))))).
  cbn. lia.
Defined.

(** X14.  The encoding of permission triples is injective, and it inverts
    the decoding on each of the eight access values it can produce. *)
Theorem memaccess_of_injective :
  (forall r w x r' w' x',
     memaccess_of r w x = memaccess_of r' w' x' ->
     (r, w, x) = (r', w', x'))
  /\ (forall a,
        In a [access_n; access_r; access_w; access_x;
              access_rw; access_rx; access_wx; access_rwx] ->
        let '(r, w, x) := decode_memaccess a in memaccess_of r w x = a).
Proof.
  split.
  - intros r w x r' w' x' Heq.
    rewrite <- (memaccess_round_trip r w x), Heq.
    apply memaccess_round_trip.
  - intros a Hin. cbn [In] in Hin.
    repeat (destruct Hin as [<-|Hin]; [reflexivity|]). contradiction.
Qed.

Lemma memaccess_of_injective_witness :
  let '(r, w, x) := decode_memaccess access_wx in
  memaccess_of r w x = access_wx.
Proof.
  apply (proj2 memaccess_of_injective access_wx).
  cbn [In]. tauto.
Defined.

(** ** MSR intercept set: failure, frame, inverse *)

(** X15.  When the insertion cannot allocate, [enableMsrExit] returns
    [false] with [oldValue = false] and the set as it was; nothing is
    thrown.  An MSR already in the set needs no allocation and succeeds
    regardless. *)
Theorem enableMsrExit_allocation_failure (msrs_ : gset Z) (msr : Z)
    (oldValue : bool) :
  (msr ∉ msrs_ -> enableMsrExit false msrs_ msr oldValue = (false, false, msrs_))
  /\ (msr ∈ msrs_ -> enableMsrExit false msrs_ msr oldValue = (true, true, msrs_)).
Proof.
  unfold enableMsrExit, msrs_insert.
  split; intros Hin; destruct (decide (msr ∈ msrs_)); try contradiction;
    reflexivity.
Qed.

Lemma enableMsrExit_allocation_failure_witness :
  enableMsrExit false ∅ 0x176 true = (false, false, ∅).
Proof.
  apply (proj1 (enableMsrExit_allocation_failure ∅ 0x176 true)).
  apply not_elem_of_empty.
Defined.

(** X16.  Whatever the caller's [oldValue] held, after a successful call
    it tells whether the MSR was in the set before; afterwards the MSR is
    in the set ([enableMsrExit]) or not in it ([disableMsrExit]), and the
    membership of every other MSR is as before. *)
Theorem msr_exit_reports_membership (msrs_ : gset Z) (msr other : Z)
    (oldValue : bool) :
  other <> msr ->
  let en := enableMsrExit true msrs_ msr oldValue in
  let dis := disableMsrExit msrs_ msr oldValue in
  (fst (fst en) = true /\ snd (fst en) = bool_decide (msr ∈ msrs_)
   /\ msr ∈ snd en /\ (other ∈ snd en <-> other ∈ msrs_))
  /\ (fst (fst dis) = true /\ snd (fst dis) = bool_decide (msr ∈ msrs_)
      /\ (msr ∉ snd dis) /\ (other ∈ snd dis <-> other ∈ msrs_)).
Proof.
  intros Hother. cbv zeta.
  unfold enableMsrExit, disableMsrExit, msrs_insert.
  destruct (decide (msr ∈ msrs_)) as [Hin|Hout]; cbn [try_catch fst snd].
  - rewrite (bool_decide_eq_true_2 _ Hin).
    repeat split; try assumption; try tauto;
      rewrite ?elem_of_difference, ?elem_of_singleton; tauto.
  - rewrite (bool_decide_eq_false_2 _ Hout).
    repeat split; try assumption; try tauto;
      rewrite ?elem_of_union, ?elem_of_singleton; tauto.
Qed.

Lemma msr_exit_reports_membership_witness :
  snd (fst (enableMsrExit true {[0x174]} 0x176 true)) = false
  /\ 0x174 ∈ snd (enableMsrExit true {[0x174]} 0x176 true).
Proof.
  destruct (msr_exit_reports_membership {[0x174]} 0x176 0x174 true
              ltac:(discriminate)) as ((_ & Hold & _ & Hother) & _).
  split.
  - rewrite Hold. apply bool_decide_eq_false_2.
    rewrite elem_of_singleton. discriminate.
  - apply Hother, elem_of_singleton. reflexivity.
Defined.

(** X17.  Enabling an MSR that was not intercepted and disabling it again
    gives back the set; so does disabling an intercepted MSR and enabling
    it again. *)
Theorem msr_enable_disable_inverse (msrs_ : gset Z) (msr : Z)
    (old old' : bool) :
  (msr ∉ msrs_ ->
   snd (disableMsrExit (snd (enableMsrExit true msrs_ msr old)) msr old')
   = msrs_)
  /\ (msr ∈ msrs_ ->
      snd (enableMsrExit true (snd (disableMsrExit msrs_ msr old)) msr old')
      = msrs_).
Proof.
  unfold enableMsrExit, disableMsrExit, msrs_insert. split; intros Hin.
  - destruct (decide (msr ∈ msrs_)) as [|_]; [contradiction|].
    cbn [try_catch snd].
    destruct (decide (msr ∈ {[msr]} ∪ msrs_)) as [_|Hn]; cbn [try_catch snd].
    + apply set_eq. intros x.
      rewrite elem_of_difference, elem_of_union, elem_of_singleton.
      split; [tauto|]. intros Hx. split; [tauto|]. congruence.
    + contradiction Hn. apply elem_of_union_l, elem_of_singleton. reflexivity.
  - destruct (decide (msr ∈ msrs_)) as [_|]; [|contradiction].
    cbn [try_catch snd].
    destruct (decide (msr ∈ msrs_ ∖ {[msr]})) as [Hy|_]; cbn [try_catch snd].
    + apply elem_of_difference in Hy as [_ Hy].
      contradiction Hy. apply elem_of_singleton. reflexivity.
    + apply set_eq. intros x.
      rewrite elem_of_union, elem_of_difference, elem_of_singleton.
      split.
      * intros [->|[Hx _]]; assumption.
      * intros Hx. destruct (decide (x = msr)); tauto.
Qed.

Lemma msr_enable_disable_inverse_witness :
  snd (disableMsrExit (snd (enableMsrExit true {[0x174]} 0x176 false))
         0x176 false)
  = {[0x174]}.
Proof.
  apply (proj1 (msr_enable_disable_inverse {[0x174]} 0x176 false false)).
  rewrite elem_of_singleton. discriminate.
Defined.

(** ** Mapping: outcomes, composition, release *)

Lemma page_offset (address : Z) :
  Z.land address (uint64_t (Z.lnot XC_PAGE_MASK)) = address mod 4096.
Proof.
  change (uint64_t (Z.lnot XC_PAGE_MASK)) with (Z.ones 12).
  rewrite Z.land_ones by lia. reflexivity.
Qed.

(** The outcomes of a [mapPhysMemToHost] request within one page, by what
    the page cache answers. *)
Lemma mapPhysMemToHost_cases {PC : Type} (ops : MapOps PC)
    (d : Mapper PC) (address length pointer : Z)
    (pc' : PC) (r : Exc (MapReturnCode * Z)) :
  0 <= address < 2 ^ 64 ->
  crosses_page address length = false ->
  pageCache_update ops (pageCache_ d) (page_of address) = (pc', r) ->
  exists rc p,
    mapPhysMemToHost ops d address length pointer
    = (rc, p,
       mk_Mapper (addressCache_ d) pc'
                 (PageCacheUpdate (page_of address) :: calls d))
    /\ match r with
       | Some (MAP_SUCCESS, mapped) =>
           if mapped =? NULL then rc = MAP_FAILED_GENERIC /\ p = NULL
           else rc = MAP_SUCCESS /\ p = mapped + address mod 4096
       | Some (mrc, _) => rc = mrc /\ p = NULL
       | None => rc = MAP_FAILED_GENERIC /\ p = NULL
       end.
Proof.
  intros Ha Hpage Hupd. unfold mapPhysMemToHost. rewrite Hpage.
  cbn [record_call addressCache_ pageCache_ calls].
  rewrite (paddr_to_pfn_page address Ha), Hupd, page_offset.
  destruct r as [[mrc mapped]|]; cbn [try_catch].
  - destruct mrc; cbn [negb bool_decide decide_rel]; try (eauto; fail).
    destruct (mapped =? NULL); eauto.
  - eauto.
Qed.

(** X18.  A [mapPhysMemToHost] request within one page asks the page cache
    once, for the frame [address / 4096], and touches neither the
    translation cache nor the guest translation.  It succeeds exactly when
    the page cache reports success with a non-null page, and then returns
    the page plus [address mod 4096]; a return code other than success is
    passed on as it is, a null page or an exception gives
    [MAP_FAILED_GENERIC]; in all those cases the pointer is null. *)
Theorem mapPhysMemToHost_outcome {PC : Type} (ops : MapOps PC)
    (d : Mapper PC) (address length pointer : Z)
    (pc' : PC) (r : Exc (MapReturnCode * Z)) :
  0 <= address < 2 ^ 64 ->
  crosses_page address length = false ->
  pageCache_update ops (pageCache_ d) (page_of address) = (pc', r) ->
  exists rc p,
    mapPhysMemToHost ops d address length pointer
    = (rc, p,
       mk_Mapper (addressCache_ d) pc'
                 (PageCacheUpdate (page_of address) :: calls d))
    /\ match r with
       | Some (MAP_SUCCESS, mapped) =>
           if mapped =? NULL then rc = MAP_FAILED_GENERIC /\ p = NULL
           else rc = MAP_SUCCESS /\ p = mapped + address mod 4096
       | Some (mrc, _) => rc = mrc /\ p = NULL
       | None => rc = MAP_FAILED_GENERIC /\ p = NULL
       end.
Proof.
  intros Ha Hpage Hupd.
  exact (mapPhysMemToHost_cases ops d address length pointer pc' r
           Ha Hpage Hupd).
Qed.

Lemma mapPhysMemToHost_outcome_witness :
  mapPhysMemToHost (counting_map_ops (fun _ _ => 0))
    (mk_Mapper (∅ : gmap Z Z) 0%nat []) 0x5123 8 NULL
  = (MAP_SUCCESS, 0x6123, mk_Mapper ∅ 1%nat [PageCacheUpdate 5]).
Proof.
  destruct (mapPhysMemToHost_outcome (counting_map_ops (fun _ _ => 0))
              (mk_Mapper (∅ : gmap Z Z) 0%nat []) 0x5123 8 NULL
              1%nat (Some (MAP_SUCCESS, 0x6000)))
    as (rc & p & Hcall & Hrc & Hp); [lia | reflexivity | reflexivity |].
  rewrite Hcall, Hrc, Hp. reflexivity.
Defined.

(** X19.  Once the frame is resolved, from the translation cache or by a
    successful translation, [mapVirtMemToHost] gives what
    [mapPhysMemToHost] gives for the physical address made of that frame
    and the offset of the virtual address: the same return code and
    pointer, and the same page cache afterwards. *)
Theorem mapVirtMemToHost_as_physical {PC : Type} (ops : MapOps PC)
    (d : Mapper PC) (address length vcpu pointer gfn : Z) :
  0 <= address < 2 ^ 64 ->
  crosses_page address length = false ->
  0 <= gfn < 2 ^ 52 ->
  (addressCache_ d !! address = Some gfn
   \/ (addressCache_ d !! address = None
       /\ xc_translate_foreign_address ops vcpu address = gfn /\ gfn <> 0)) ->
  let virt := mapVirtMemToHost ops d address length vcpu pointer in
  let phys :=
    mapPhysMemToHost ops d (gfn * 4096 + address mod 4096) 1 pointer in
  fst virt = fst phys /\ pageCache_ (snd virt) = pageCache_ (snd phys).
Proof.
  intros Ha Hpage Hgfn Hres. cbv zeta.
  pose proof (Z.mod_pos_bound address 4096 ltac:(lia)) as Hoff.
  set (pa := gfn * 4096 + address mod 4096).
  assert (Hpa : 0 <= pa < 2 ^ 64).
  { subst pa. change (2 ^ 52) with 4503599627370496 in Hgfn.
    change (2 ^ 64) with 18446744073709551616. lia. }
  assert (Hone : crosses_page pa 1 = false).
  { unfold crosses_page. replace (pa + 1 - 1) with pa by lia.
    unfold uint64_t at 1, wrap. rewrite (Z.mod_small pa) by exact Hpa.
    rewrite Z.eqb_refl. reflexivity. }
  assert (Hpfn : paddr_to_pfn pa = gfn).
  { rewrite (paddr_to_pfn_page pa Hpa). unfold page_of.
    change XC_PAGE_SIZE with 4096. subst pa.
    rewrite Z.div_add_l, Z.div_small by lia. lia. }
  assert (Hsame : pa mod 4096 = address mod 4096).
  { subst pa. rewrite Z.add_comm, Z.mod_add by lia.
    apply Z.mod_small. exact Hoff. }
  unfold mapVirtMemToHost, mapPhysMemToHost. rewrite Hpage, Hone.
  cbn [record_call addressCache_ pageCache_ calls].
  rewrite Hpfn, !page_offset, Hsame.
  destruct (pageCache_update ops (pageCache_ d) gfn) as [pc' r] eqn:Hupd.
  destruct Hres as [Hhit | (Hmiss & Htr & Hnz)].
  - rewrite Hhit. cbn [record_call addressCache_ pageCache_ calls].
    rewrite Hupd. destruct r as [[mrc mapped]|]; cbn [try_catch].
    + destruct (negb (bool_decide (mrc = MAP_SUCCESS))); [split; reflexivity|].
      destruct (mapped =? NULL); split; reflexivity.
    + split; reflexivity.
  - rewrite Hmiss, Htr.
    destruct (Z.eqb_spec gfn 0) as [Hz|_]; [contradiction|].
    cbn [record_call addressCache_ pageCache_ calls].
    rewrite Hupd. destruct r as [[mrc mapped]|]; cbn [try_catch].
    + destruct (negb (bool_decide (mrc = MAP_SUCCESS))); [split; reflexivity|].
      destruct (mapped =? NULL); split; reflexivity.
    + split; reflexivity.
Qed.

Lemma mapVirtMemToHost_as_physical_witness :
  fst (mapVirtMemToHost (counting_map_ops (fun _ _ => 7))
         (mk_Mapper (∅ : gmap Z Z) 0%nat []) 0x401234 4 0 NULL)
  = fst (mapPhysMemToHost (counting_map_ops (fun _ _ => 7))
           (mk_Mapper (∅ : gmap Z Z) 0%nat []) 0x7234 1 NULL).
Proof.
  apply (mapVirtMemToHost_as_physical (counting_map_ops (fun _ _ => 7))
           (mk_Mapper (∅ : gmap Z Z) 0%nat []) 0x401234 4 0 NULL 7).
  - lia.
  - reflexivity.
  - lia.
  - right. repeat split. discriminate.
Defined.

(** X20.  Releasing what a successful mapping returned releases the mapped
    page: for a page-aligned page from the page cache, [unmapPhysMem] (and
    [unmapVirtMem]) on the returned pointer hands exactly that page back to
    the page cache, whatever the offset of the mapped address. *)
Theorem unmapPhysMem_releases_mapped_page {PC : Type} (ops : MapOps PC)
    (release : PC -> Z -> PC) (d : Mapper PC) (address length pointer : Z)
    (pc' pc : PC) (mapped : Z) :
  0 <= address < 2 ^ 64 ->
  crosses_page address length = false ->
  pageCache_update ops (pageCache_ d) (page_of address)
  = (pc', Some (MAP_SUCCESS, mapped)) ->
  0 < mapped < 2 ^ 64 ->
  mapped mod 4096 = 0 ->
  let p := snd (fst (mapPhysMemToHost ops d address length pointer)) in
  unmapPhysMem release pc p = (true, release pc mapped)
  /\ unmapVirtMem release pc p = (true, release pc mapped).
Proof.
  intros Ha Hpage Hupd Hm Haligned. cbv zeta.
  destruct (mapPhysMemToHost_cases ops d address length pointer pc' _
              Ha Hpage Hupd) as (rc & p & -> & Hout).
  cbn [fst snd].
  destruct (Z.eqb_spec mapped NULL) as [Hnull|_]; [unfold NULL in Hnull; lia|].
  destruct Hout as [_ ->].
  pose proof (Z.mod_pos_bound address 4096 ltac:(lia)) as Hoff.
  assert (Hp : 0 <= mapped + address mod 4096 < 2 ^ 64).
  { pose proof (Z.div_mod mapped 4096 ltac:(lia)) as Hdm.
    change (2 ^ 64) with (4096 * 4503599627370496) in *. lia. }
  unfold unmapVirtMem, unmapPhysMem.
  unfold uint64_t, wrap. rewrite (Z.mod_small _ _ Hp).
  rewrite (land_XC_PAGE_MASK _ Hp). unfold page_of.
  change XC_PAGE_SIZE with 4096.
  assert (Hback : (mapped + address mod 4096) / 4096 * 4096 = mapped).
  { pose proof (Z.div_mod mapped 4096 ltac:(lia)) as Hdm.
    rewrite Haligned, Z.add_0_r in Hdm.
    replace (mapped + address mod 4096)
      with (mapped / 4096 * 4096 + address mod 4096) by lia.
    rewrite Z.div_add_l, (Z.div_small (address mod 4096)) by lia. lia. }
  rewrite Hback. split; reflexivity.
Qed.

Lemma unmapPhysMem_releases_mapped_page_witness :
  unmapPhysMem (fun (pc : nat) (_ : Z) => pred pc) 1%nat
    (snd (fst (mapPhysMemToHost (counting_map_ops (fun _ _ => 0))
                 (mk_Mapper (∅ : gmap Z Z) 0%nat []) 0x5123 8 NULL)))
  = (true, 0%nat).
Proof.
  apply (unmapPhysMem_releases_mapped_page (counting_map_ops (fun _ _ => 0))
           (fun (pc : nat) (_ : Z) => pred pc)
           (mk_Mapper (∅ : gmap Z Z) 0%nat []) 0x5123 8 NULL
           1%nat 1%nat 0x6000).
  - lia.
  - reflexivity.
  - reflexivity.
  - lia.
  - reflexivity.
Defined.

(** X21.  [cacheGuestVirtAddr] translates once, for vCPU 0.  It returns
    [true] exactly when the frame number is not 0 and the entry could be
    stored; then the cache maps the address to that frame, replacing any
    earlier entry, and every other entry is as before.  When it returns
    [false] the cache is as before.  The page cache is never involved. *)
Theorem cacheGuestVirtAddr_outcome {PC : Type} (ops : MapOps PC)
    (alloc_ok : bool) (d : Mapper PC) (address : Z) :
  let gfn := xc_translate_foreign_address ops 0 address in
  let r := cacheGuestVirtAddr ops alloc_ok d address in
  (fst r = true <-> gfn <> 0 /\ alloc_ok = true)
  /\ (fst r = true ->
      addressCache_ (snd r) !! address = Some gfn
      /\ forall other, other <> address ->
           addressCache_ (snd r) !! other = addressCache_ d !! other)
  /\ (fst r = false -> addressCache_ (snd r) = addressCache_ d)
  /\ pageCache_ (snd r) = pageCache_ d
  /\ calls (snd r)
     = (if fst r then [AddressCacheStore address gfn] else [])
       ++ TranslateForeignAddress 0 address :: calls d.
Proof.
  cbv zeta. unfold cacheGuestVirtAddr.
  cbn [record_call addressCache_ pageCache_ calls].
  destruct (Z.eqb_spec (xc_translate_foreign_address ops 0 address) 0)
    as [Hz|Hnz].
  - cbn [fst snd addressCache_ pageCache_ calls app].
    repeat split; try discriminate; try tauto.
  - destruct alloc_ok;
      cbn [try_catch fst snd addressCache_ pageCache_ calls app].
    + repeat split; try discriminate; try tauto.
      * apply lookup_insert_eq.
      * intros other Hother. apply lookup_insert_ne. congruence.
    + repeat split; try discriminate; try tauto.
Qed.

Lemma cacheGuestVirtAddr_outcome_witness :
  let d := mk_Mapper ({[ 0x1000 := 3 ]} : gmap Z Z) 0%nat [] in
  let r := cacheGuestVirtAddr (counting_map_ops (fun _ _ => 7)) true d 0x1000 in
  addressCache_ (snd r) !! 0x1000 = Some 7.
Proof.
  cbv zeta.
  destruct (cacheGuestVirtAddr_outcome (counting_map_ops (fun _ _ => 7)) true
              (mk_Mapper ({[ 0x1000 := 3 ]} : gmap Z Z) 0%nat []) 0x1000)
    as (_ & Hstored & _).
  apply Hstored. reflexivity.
Defined.

(** ** Resolving a domain name: matches and failures *)

(** The loop of [getDomainId] ends with the number of the last entry that
    carries the name. *)
Lemma getDomainId_returns_last (xs : XenStore) (xsh_0 : bool)
    (domainName : string) (before after : list string) (entry : string) :
  xsh_0 = true \/ xs_open xs = true ->
  xs_directory xs "/local/domain"%string = before ++ entry :: after ->
  xs_read_timeout xs ("/local/domain/" +:+ entry +:+ "/name")%string
  = Some domainName ->
  (forall later, In later after ->
     xs_read_timeout xs ("/local/domain/" +:+ later +:+ "/name")%string
     <> Some domainName) ->
  getDomainId xs xsh_0 domainName = (Returned (uint16_t (atoi entry)), true).
Proof.
  intros Havail Hdir Hentry Hafter.
  assert (Hopen : negb xsh_0 && negb (xs_open xs) = false).
  { destruct Havail as [-> | ->]; [reflexivity | apply andb_false_r]. }
  unfold getDomainId. rewrite Hopen, Hdir.
  destruct (before ++ entry :: after) as [|e es] eqn:Happ.
  { destruct before; discriminate. }
  cbn [length Nat.eqb]. rewrite <- Happ.
  rewrite fold_left_app. cbn [fold_left].
  rewrite getDomainId_loop_no_match by exact Hafter.
  unfold getDomainId_step at 1. rewrite Hentry, String.eqb_refl.
  reflexivity.
Qed.

(** X22.  [getDomainId] returns the number of the last directory entry
    that carries the requested name: earlier matches are overwritten, and
    entries whose name cannot be read or differs are skipped. *)
Theorem getDomainId_last_match (xs : XenStore) (xsh_0 : bool)
    (domainName : string) (before after : list string) (entry : string) :
  xsh_0 = true \/ xs_open xs = true ->
  xs_directory xs "/local/domain"%string = before ++ entry :: after ->
  xs_read_timeout xs ("/local/domain/" +:+ entry +:+ "/name")%string
  = Some domainName ->
  (forall later, In later after ->
     xs_read_timeout xs ("/local/domain/" +:+ later +:+ "/name")%string
     <> Some domainName) ->
  getDomainId xs xsh_0 domainName = (Returned (uint16_t (atoi entry)), true).
Proof.
  intros Havail Hdir Hentry Hafter.
  exact (getDomainId_returns_last xs xsh_0 domainName before after entry
           Havail Hdir Hentry Hafter).
Qed.

Lemma getDomainId_last_match_witness :
  getDomainId two_domain_store false "guest" = (Returned 5, true).
Proof.
  apply (getDomainId_last_match two_domain_store false "guest"
           ["0"%string] [] "5").
  - right. reflexivity.
  - reflexivity.
  - reflexivity.
  - intros later [].
Defined.

Lemma getDomainId_loop_range (xs : XenStore) (domainName : string)
    (domains : list string) (domainId : Z) :
  0 <= domainId < 2 ^ 16 ->
  0 <= fold_left (getDomainId_step xs domainName) domains domainId < 2 ^ 16.
Proof.
  revert domainId.
  induction domains as [|entry domains IH]; intros domainId Hid;
    [exact Hid|].
  cbn [fold_left]. apply IH. unfold getDomainId_step.
  destruct (xs_read_timeout xs _) as [nameCandidate|]; [|exact Hid].
  destruct (String.eqb domainName nameCandidate); [|exact Hid].
  unfold uint16_t, wrap. apply Z.mod_pos_bound. lia.
Qed.

(** X23.  [getDomainId] throws in two cases only, and both leave the store
    handle closed: when there is no handle and none can be opened, and when
    the listing is empty.  Whenever it returns, the handle is open and the
    identifier fits [domid_t]. *)
Theorem getDomainId_outcomes (xs : XenStore) (xsh_0 : bool)
    (domainName : string) :
  (xsh_0 = false -> xs_open xs = false ->
   getDomainId xs xsh_0 domainName = (Threw "xs_open() failed", false))
  /\ (xsh_0 = true \/ xs_open xs = true ->
      xs_directory xs "/local/domain"%string = [] ->
      getDomainId xs xsh_0 domainName
      = (Threw ("Failed to retrieve domain ID by name ["
                +:+ domainName +:+ "]"), false))
  /\ (forall domainId xsh_1,
        getDomainId xs xsh_0 domainName = (Returned domainId, xsh_1) ->
        xsh_1 = true /\ 0 <= domainId < 2 ^ 16
        /\ xs_directory xs "/local/domain"%string <> []).
Proof.
  unfold getDomainId. split; [|split].
  - intros -> ->. reflexivity.
  - intros Havail Hdir.
    assert (Hopen : negb xsh_0 && negb (xs_open xs) = false).
    { destruct Havail as [-> | ->]; [reflexivity | apply andb_false_r]. }
    rewrite Hopen, Hdir. reflexivity.
  - intros domainId xsh_1.
    destruct (negb xsh_0 && negb (xs_open xs)); [discriminate|].
    destruct (xs_directory xs "/local/domain") as [|e es];
      cbn [length Nat.eqb]; [discriminate|].
    intros [= <- <-]. split; [reflexivity|]. split; [|discriminate].
    apply (getDomainId_loop_range xs domainName (e :: es) 0).
    split; [lia | reflexivity].
Qed.

Lemma getDomainId_outcomes_witness :
  getDomainId (mk_XenStore false (fun _ => []) (fun _ => None)) false "guest"
  = (Threw "xs_open() failed", false).
Proof.
  apply (proj1 (getDomainId_outcomes
                  (mk_XenStore false (fun _ => []) (fun _ => None))
                  false "guest")); reflexivity.
Defined.

(** *** Decimal entries *)

Lemma digit_value_pretty_N_char (m : N) :
  (m < 10)%N -> digit_value (pretty_N_char m) = Some (Z.of_N m).
Proof.
  intros Hm.
  assert (Hcases : (m = 0 \/ m = 1 \/ m = 2 \/ m = 3 \/ m = 4 \/ m = 5
                    \/ m = 6 \/ m = 7 \/ m = 8 \/ m = 9)%N) by lia.
  destruct Hcases as [->|[->|[->|[->|[->|[->|[->|[->|[->| ->]]]]]]]]];
    reflexivity.
Qed.

Lemma atoi_head_digit (m : N) (rest : string) :
  (m < 10)%N ->
  atoi (String (pretty_N_char m) rest)
  = atoi_digits (String (pretty_N_char m) rest) 0.
Proof.
  intros Hm.
  assert (Hcases : (m = 0 \/ m = 1 \/ m = 2 \/ m = 3 \/ m = 4 \/ m = 5
                    \/ m = 6 \/ m = 7 \/ m = 8 \/ m = 9)%N) by lia.
  destruct Hcases as [->|[->|[->|[->|[->|[->|[->|[->|[->| ->]]]]]]]]];
    reflexivity.
Qed.

(** The digits that [pretty_N_go] puts in front of [s] are read back by
    [atoi_digits]. *)
Lemma atoi_digits_pretty_N_go (x : N) :
  exists k : Z,
    0 <= k
    /\ forall s acc,
         atoi_digits (pretty_N_go x s) acc
         = atoi_digits s (acc * 10 ^ k + Z.of_N x).
Proof.
  induction (N.lt_wf_0 x) as [x _ IH].
  destruct (N.eq_dec x 0%N) as [->|Hpos].
  - exists 0. split; [lia|]. intros s acc.
    rewrite pretty_N_go_0. f_equal. lia.
  - destruct (IH (x / 10)%N) as (k & Hk & Hgo).
    { apply N.div_lt; lia. }
    exists (k + 1). split; [lia|]. intros s acc.
    rewrite pretty_N_go_step by lia. rewrite Hgo.
    cbn [atoi_digits].
    rewrite digit_value_pretty_N_char by (apply N.mod_lt; lia).
    f_equal. rewrite Z.pow_add_r by lia.
    pose proof (N.div_mod x 10%N ltac:(lia)) as Hdm.
    apply (f_equal Z.of_N) in Hdm.
    rewrite N2Z.inj_add, N2Z.inj_mul in Hdm. change (Z.of_N 10) with 10 in Hdm.
    change (10 ^ 1) with 10. rewrite Hdm. ring.
Qed.

Lemma pretty_N_go_head (x : N) (s : string) :
  (0 < x)%N ->
  exists m rest, (m < 10)%N /\ pretty_N_go x s = String (pretty_N_char m) rest.
Proof.
  revert s. induction (N.lt_wf_0 x) as [x _ IH]. intros s Hpos.
  rewrite pretty_N_go_step by exact Hpos.
  destruct (N.eq_dec (x / 10)%N 0%N) as [Hz|Hnz].
  - rewrite Hz, pretty_N_go_0. exists (x mod 10)%N, s.
    split; [apply N.mod_lt; lia | reflexivity].
  - apply IH; [apply N.div_lt; lia | apply N.neq_0_lt_0; exact Hnz].
Qed.

Lemma atoi_pretty (n : Z) : 0 <= n -> atoi (pretty n) = n.
Proof.
  intros Hn. destruct n as [|p|p]; [reflexivity | | lia].
  change (pretty (Z.pos p)) with (pretty_N_go (N.pos p) "").
  destruct (pretty_N_go_head (N.pos p) "" ltac:(lia)) as (m & rest & Hm & Hhead).
  destruct (atoi_digits_pretty_N_go (N.pos p)) as (k & Hk & Hgo).
  rewrite Hhead, atoi_head_digit, <- Hhead, Hgo by exact Hm.
  cbn [atoi_digits]. lia.
Qed.

(** X24.  Directory entries are decimal domain numbers: when the last
    entry carrying the requested name is the decimal rendering of a number
    that fits [domid_t], [getDomainId] returns that number, which is the
    number [init] renders again for its own store paths. *)
Theorem getDomainId_decimal_entry (xs : XenStore) (xsh_0 : bool)
    (domainName : string) (before after : list string) (domainId : Z) :
  xsh_0 = true \/ xs_open xs = true ->
  0 <= domainId < 2 ^ 16 ->
  xs_directory xs "/local/domain"%string = before ++ pretty domainId :: after ->
  xs_read_timeout xs ("/local/domain/" +:+ pretty domainId +:+ "/name")%string
  = Some domainName ->
  (forall later, In later after ->
     xs_read_timeout xs ("/local/domain/" +:+ later +:+ "/name")%string
     <> Some domainName) ->
  getDomainId xs xsh_0 domainName = (Returned domainId, true).
Proof.
  intros Havail Hid Hdir Hentry Hafter.
  rewrite (getDomainId_returns_last xs xsh_0 domainName before after
             (pretty domainId) Havail Hdir Hentry Hafter).
  rewrite atoi_pretty by lia.
  unfold uint16_t, wrap. rewrite Z.mod_small by lia. reflexivity.
Qed.

Lemma getDomainId_decimal_entry_witness :
  getDomainId
    (mk_XenStore true
       (fun _ => ["0"; "7"; "1234"]%string)
       (fun path =>
          if String.eqb path "/local/domain/1234/name" then
            Some "build-host"%string
          else Some "other"%string))
    false "build-host"
  = (Returned 1234, true).
Proof.
  apply (getDomainId_decimal_entry _ false "build-host"
           ["0"; "7"]%string [] 1234).
  - right. reflexivity.
  - lia.
  - reflexivity.
  - reflexivity.
  - intros later [].
Defined.

(** ** Opening a session *)

(** X25.  [init] either completes with both handles open, or throws with
    both handles closed: no failure leaves a handle behind.  On completion
    the guest word size is 4 or 8, the address width is 36 when the
    processor has no leaf 0x80000008 and otherwise what fits [uint8_t], the
    page cache is initialised for the domain, and [domain_] is untouched. *)
Theorem init_handles (xc : InitOps) (xs : XenStore) (s : Session)
    (domain : Z) (hvmOnly : bool) :
  let r := init xc xs s domain hvmOnly in
  match fst r with
  | InitThrew _ _ => xci_ (snd r) = false /\ xsh_ (snd r) = false
  | InitDone =>
      xci_ (snd r) = true /\ xsh_ (snd r) = true
      /\ (guestWidth_ (snd r) = 4 \/ guestWidth_ (snd r) = 8)
      /\ 0 <= physAddr_ (snd r) < 256
      /\ (get_cpuid xc 0x80000000 < 0x80000008 -> physAddr_ (snd r) = 36)
      /\ pageCache_domain (snd r) = Some domain
      /\ domain_ (snd r) = domain_ s
  end.
Proof.
  cbv zeta. unfold init.
  cbn [xci_ xsh_ domain_ guestWidth_ physAddr_ uuid_ pageCache_domain].
  destruct (xc_interface_open xc); cbn [negb]; [|split; reflexivity].
  destruct (xc_domain_getinfo xc domain) as [info|]; [|split; reflexivity].
  destruct (hvmOnly && negb (hvm info)); [split; reflexivity|].
  destruct (xc_version_capabilities xc) as [caps|]; [|split; reflexivity].
  destruct (if xsh_ s then true else xs_open xs); cbn [negb];
    [|split; reflexivity].
  cbn [fst snd xci_ xsh_ domain_ guestWidth_ physAddr_ pageCache_domain].
  repeat split.
  - destruct (strstr caps "x86_64"); auto.
  - destruct (0x80000008 <=? cpuid_eax xc 0x80000000); [|lia].
    unfold uint8_t, wrap. apply Z.mod_pos_bound. lia.
  - destruct (0x80000008 <=? cpuid_eax xc 0x80000000); [|lia].
    unfold uint8_t, wrap. apply Z.mod_pos_bound. lia.
  - intros Hleaf. unfold cpuid_eax.
    destruct (Z.leb_spec 0x80000008 (get_cpuid xc 0x80000000)); [lia|].
    reflexivity.
Qed.

Lemma init_handles_witness :
  let r := init sample_init_ops two_domain_store
             (mk_Session false false 5 8 0 "" None) 5 true in
  xci_ (snd r) = true /\ xsh_ (snd r) = true
  /\ (guestWidth_ (snd r) = 4 \/ guestWidth_ (snd r) = 8)
  /\ 0 <= physAddr_ (snd r) < 256.
Proof.
  cbv zeta.
  pose proof (init_handles sample_init_ops two_domain_store
                (mk_Session false false 5 8 0 "" None) 5 true) as Hinit.
  cbv zeta in Hinit.
  change (fst (init sample_init_ops two_domain_store
                 (mk_Session false false 5 8 0 "" None) 5 true))
    with InitDone in Hinit.
  destruct Hinit as (Hxci & Hxsh & Hwidth & Haddr & _).
  auto.
Defined.

(** X26.  The failures of [init] come in a fixed order, each with its own
    message: no control interface; no domain information; an HVM-only
    request for a domain that is not HVM, the only failure that carries
    [NOT_HVM]; no capability string; no store handle.  A request that is
    not HVM-only never fails for the kind of the domain. *)
Theorem init_failure_order (xc : InitOps) (xs : XenStore) (s : Session)
    (domain : Z) (hvmOnly : bool) :
  let r := fst (init xc xs s domain hvmOnly) in
  (xc_interface_open xc = false ->
   r = InitThrew "xc_interface_init() failed" false)
  /\ (xc_interface_open xc = true -> xc_domain_getinfo xc domain = None ->
      r = InitThrew "xc_domain_getinfo() failed" false)
  /\ (forall what, r = InitThrew what true <->
        xc_interface_open xc = true /\ hvmOnly = true
        /\ (exists info, xc_domain_getinfo xc domain = Some info
                         /\ hvm info = false)
        /\ what = ("Domain " +:+ pretty domain +:+ " is not a HVM guest")%string)
  /\ (forall info,
        xc_interface_open xc = true ->
        xc_domain_getinfo xc domain = Some info ->
        hvmOnly && negb (hvm info) = false ->
        (xc_version_capabilities xc = None ->
         r = InitThrew "Could not get Xen capabilities" false)
        /\ (xc_version_capabilities xc <> None ->
            xsh_ s = false -> xs_open xs = false ->
            r = InitThrew "xs_open() failed" false)
        /\ (xc_version_capabilities xc <> None ->
            xsh_ s = true \/ xs_open xs = true ->
            r = InitDone)).
Proof.
  cbv zeta. unfold init.
  cbn [xci_ xsh_ domain_ guestWidth_ physAddr_ uuid_ pageCache_domain].
  split; [intros ->; reflexivity|].
  split; [intros -> ->; reflexivity|].
  split.
  - intros what.
    destruct (xc_interface_open xc); cbn [negb fst].
    2: { split; [discriminate | intros (Hf & _); discriminate]. }
    destruct (xc_domain_getinfo xc domain) as [info|]; cbn [fst].
    2: { split; [discriminate | intros (_ & _ & (i & Hi & _) & _); discriminate]. }
    destruct hvmOnly; cbn [andb].
    2: { destruct (xc_version_capabilities xc);
           [destruct (if xsh_ s then true else xs_open xs)|]; cbn [negb fst];
           (split; [discriminate | intros (_ & Hf & _); discriminate]). }
    destruct (hvm info) eqn:Hhvm; cbn [negb fst].
    + destruct (xc_version_capabilities xc);
        [destruct (if xsh_ s then true else xs_open xs)|]; cbn [negb fst];
        (split; [discriminate
                | intros (_ & _ & (i & [= <-] & Hi) & _); congruence]).
    + split.
      * intros [= <-]. repeat split. exists info. auto.
      * intros (_ & _ & _ & ->). reflexivity.
  - intros info -> -> Hkind. cbn [negb]. rewrite Hkind.
    split; [intros ->; reflexivity|].
    destruct (xc_version_capabilities xc) as [caps|];
      split; try (intros Hc; contradiction Hc; reflexivity).
    + intros _ -> ->. reflexivity.
    + intros _ [-> | Hopen]; [reflexivity|].
      rewrite Hopen. destruct (xsh_ s); reflexivity.
Qed.

Lemma init_failure_order_witness :
  fst (init (mk_InitOps true (fun _ => Some (mk_xc_dominfo_t false 0))
                        (Some "xen-3.0-x86_64"%string) (fun _ => 0))
            two_domain_store
            (mk_Session false false 5 8 0 "" None) 5 true)
  = InitThrew "Domain 5 is not a HVM guest" true.
Proof.
  apply (proj1 (proj2 (proj2 (init_failure_order _ _ _ 5 true)))).
  repeat split. exists (mk_xc_dominfo_t false 0). split; reflexivity.
Defined.


